(** * trello-sync-api: a shallow embedding of [app.py]

    The service has one source file: a timestamp localizer
    ([convert_to_canada_central_time]), a small HTTP client for the Trello
    REST API ([TrelloAPI]) and the [/sync] handler that flattens boards,
    cards and checklist items into task records.

    Modelling choices.
    - Python values decoded from JSON are the inductive [json]; every
      primitive the source applies to them ([x[k]], [x.get(k)], [k in x],
      iteration, truthiness, [str.join], f-string formatting) is a total
      function that returns what Python returns or raises what Python
      raises.  JSON numbers are restricted to integers.
    - Exceptions are values of [exn]; code that can raise returns a
      [result].  Stateful code runs in the monad [M]: the state survives
      a raise, exactly as mutations of Python objects survive an exception.
    - The upstream service is a function from the number of requests the
      process has made so far and the request to a reply, so it may change
      arbitrarily between and within invocations.
    - Strings are byte strings; lengths and slices agree with Python's on
      ASCII text.
    - Of the [datetime] library the file models what [app.py] calls: the
      constructor, [weekday], [+ timedelta], comparison of naive values,
      [strftime] for the three directives used (with a four-digit [%Y] and
      the C locale's AM/PM) and [fromisoformat] for its documented grammar,
      all following the library's own arithmetic on proleptic Gregorian
      ordinals. *)

From Stdlib Require Import ZArith Lia Ascii String List.
From stdpp Require Import base gmap sets list strings pretty.

Set Warnings "-register-all".
Local Open Scope string_scope.

(** ** Python values and primitives *)

Module Py.

Inductive json : Type :=
| JNull
| JBool (b : bool)
| JNum (n : Z)
| JStr (s : string)
| JArr (l : list json)
| JObj (d : list (string * json)).

Inductive exn : Type :=
| KeyError (k : string)
| TypeError
| AttributeError
| ValueError
| OverflowError
| JSONDecodeError
| RequestException (msg : string).

Inductive result (A : Type) : Type :=
| Ok (a : A)
| Raise (e : exn).
Arguments Ok {A} a.
Arguments Raise {A} e.

Definition result_bind {A B} (m : result A) (k : A → result B) : result B :=
  match m with
  | Ok a => k a
  | Raise e => Raise e
  end.

Notation "'let?' x ':=' m 'in' k" := (result_bind m (fun x => k))
  (at level 10, x pattern, m at level 100, k at level 200,
   format "'[v' 'let?'  x  ':='  m  'in' '/' k ']'").

Fixpoint result_mapM {A B} (f : A → result B) (l : list A) : result (list B) :=
  match l with
  | [] => Ok []
  | x :: l' =>
      let? y := f x in
      let? ys := result_mapM f l' in
      Ok (y :: ys)
  end.

(** [bool(x)] *)
Definition truthy (x : json) : bool :=
  match x with
  | JNull => false
  | JBool b => b
  | JNum n => negb (n =? 0)%Z
  | JStr s => negb (String.eqb s EmptyString)
  | JArr l => match l with [] => false | _ => true end
  | JObj d => match d with [] => false | _ => true end
  end.

(** [x or y] *)
Definition py_or (x y : json) : json := if truthy x then x else y.

(** Lookup in a decoded JSON object (keys are strings). *)
Fixpoint assoc (k : string) (d : list (string * json)) : option json :=
  match d with
  | [] => None
  | (k', v) :: d' => if String.eqb k k' then Some v else assoc k d'
  end.

(** [x.get(k)]: only dicts have [get]. *)
Definition get (x : json) (k : string) : result json :=
  match x with
  | JObj d => Ok (default JNull (assoc k d))
  | _ => Raise AttributeError
  end.

(** [x.get(k, dflt)] *)
Definition get_default (x : json) (k : string) (dflt : json) : result json :=
  match x with
  | JObj d => Ok (default dflt (assoc k d))
  | _ => Raise AttributeError
  end.

(** [x[k]] for a string [k]: a missing key is a [KeyError]; lists, strings
    and scalars cannot be indexed by a string. *)
Definition getitem (x : json) (k : string) : result json :=
  match x with
  | JObj d =>
      match assoc k d with
      | Some v => Ok v
      | None => Raise (KeyError k)
      end
  | _ => Raise TypeError
  end.

(** [x == s] for a string literal [s]. *)
Definition eq_str (x : json) (s : string) : bool :=
  match x with
  | JStr s' => String.eqb s' s
  | _ => false
  end.

(** [sub in s] on strings. *)
Fixpoint is_prefix (p s : string) : bool :=
  match p, s with
  | EmptyString, _ => true
  | String a p', String b s' => Ascii.eqb a b && is_prefix p' s'
  | String _ _, EmptyString => false
  end.

Fixpoint is_substring (p s : string) : bool :=
  is_prefix p s ||
  match s with
  | EmptyString => false
  | String _ s' => is_substring p s'
  end.

(** [k in x] for a string [k]. *)
Definition contains (k : string) (x : json) : result bool :=
  match x with
  | JObj d => Ok (bool_decide (is_Some (assoc k d)))
  | JArr l => Ok (existsb (fun y => eq_str y k) l)
  | JStr s => Ok (is_substring k s)
  | _ => Raise TypeError
  end.

Fixpoint chars (s : string) : list json :=
  match s with
  | EmptyString => []
  | String c s' => JStr (String c EmptyString) :: chars s'
  end.

(** The sequence a [for] loop walks: the elements of a list, the keys of a
    dict, the characters of a string; scalars are not iterable. *)
Definition iter (x : json) : result (list json) :=
  match x with
  | JArr l => Ok l
  | JObj d => Ok (map (fun kv => JStr (fst kv)) d)
  | JStr s => Ok (chars s)
  | _ => Raise TypeError
  end.

(** [len(x)] *)
Definition len (x : json) : result nat :=
  match x with
  | JArr l => Ok (length l)
  | JObj d => Ok (length d)
  | JStr s => Ok (String.length s)
  | _ => Raise TypeError
  end.

(** [x[:n]]: a prefix of a string or a list; a dict cannot be sliced. *)
Definition slice_to (n : nat) (x : json) : result json :=
  match x with
  | JStr s => Ok (JStr (substring 0 n s))
  | JArr l => Ok (JArr (take n l))
  | _ => Raise TypeError
  end.

(** Keys of Python dicts and sets.  [True] and [False] hash and compare as
    [1] and [0]; lists and dicts are unhashable. *)
Inductive key : Type :=
| KNone
| KInt (n : Z)
| KStr (s : string).

Definition hash (x : json) : result key :=
  match x with
  | JNull => Ok KNone
  | JBool b => Ok (KInt (if b then 1 else 0))
  | JNum n => Ok (KInt n)
  | JStr s => Ok (KStr s)
  | JArr _ | JObj _ => Raise TypeError
  end.

#[global] Instance key_eq_dec : EqDecision key.
Proof. solve_decision. Defined.

Definition key_to_sum (k : key) : unit + Z + string :=
  match k with
  | KNone => inl (inl tt)
  | KInt n => inl (inr n)
  | KStr s => inr s
  end.

Definition key_of_sum (x : unit + Z + string) : key :=
  match x with
  | inl (inl _) => KNone
  | inl (inr n) => KInt n
  | inr s => KStr s
  end.

#[global] Instance key_countable : Countable key.
Proof.
  apply (inj_countable' key_to_sum key_of_sum).
  intros []; reflexivity.
Defined.

(** [sep.join(xs)]: every element must be a string. *)
Fixpoint join_strings (sep : string) (l : list string) : string :=
  match l with
  | [] => EmptyString
  | [s] => s
  | s :: l' => s ++ sep ++ join_strings sep l'
  end.

Definition as_str (x : json) : result string :=
  match x with
  | JStr s => Ok s
  | _ => Raise TypeError
  end.

Definition join (sep : string) (l : list json) : result json :=
  let? ss := result_mapM as_str l in
  Ok (JStr (join_strings sep ss)).

(** [repr] of a string: single quotes unless the text has a single and no
    double quote; backslash, the chosen quote and control characters are
    escaped. *)
Definition dquote : ascii := ascii_of_nat 34.
Definition squote : ascii := ascii_of_nat 39.
Definition backslash : ascii := ascii_of_nat 92.

Fixpoint has_char (c : ascii) (s : string) : bool :=
  match s with
  | EmptyString => false
  | String a s' => Ascii.eqb a c || has_char c s'
  end.

Definition hex_digit (n : nat) : ascii :=
  ascii_of_nat (if (n <? 10)%nat then 48 + n else 87 + n)%nat.

Definition escape_char (q c : ascii) : string :=
  let n := nat_of_ascii c in
  if Ascii.eqb c q || Ascii.eqb c backslash then String backslash (String c EmptyString)
  else if (n =? 9)%nat then String backslash "t"
  else if (n =? 10)%nat then String backslash "n"
  else if (n =? 13)%nat then String backslash "r"
  else if (n <? 32)%nat || (n =? 127)%nat then
    String backslash
      (String "x"
         (String (hex_digit (n / 16)%nat) (String (hex_digit (n mod 16)%nat) EmptyString)))
  else String c EmptyString.

Fixpoint escape (q : ascii) (s : string) : string :=
  match s with
  | EmptyString => EmptyString
  | String c s' => escape_char q c ++ escape q s'
  end.

Definition repr_str (s : string) : string :=
  let q := if has_char squote s && negb (has_char dquote s) then dquote else squote in
  String q (escape q s ++ String q EmptyString).

Fixpoint repr (x : json) : string :=
  match x with
  | JNull => "None"
  | JBool b => if b then "True" else "False"
  | JNum n => pretty n
  | JStr s => repr_str s
  | JArr l => "[" ++ join_strings ", " (map repr l) ++ "]"
  | JObj d =>
      "{" ++ join_strings ", " (map (fun kv => repr_str (fst kv) ++ ": " ++ repr (snd kv)) d) ++ "}"
  end.

(** [str(x)], as an f-string formats a value. *)
Definition str (x : json) : string :=
  match x with
  | JStr s => s
  | _ => repr x
  end.

End Py.

(** ** The [datetime] library, as far as [app.py] uses it *)

Module Datetime.
Import Py.
Local Open Scope Z_scope.

(** A [datetime] value; [tzinfo] is the UTC offset in microseconds of an
    aware value and [None] for a naive one. *)
Record datetime : Type := mk_datetime {
  year : Z;
  month : Z;
  day : Z;
  hour : Z;
  minute : Z;
  second : Z;
  microsecond : Z;
  tzinfo : option Z
}.

#[global] Instance datetime_eq_dec : EqDecision datetime.
Proof. solve_decision. Defined.

Definition MINYEAR : Z := 1.
Definition MAXYEAR : Z := 9999.
Definition MAXORDINAL : Z := 3652059.

Definition is_leap (y : Z) : bool :=
  (y mod 4 =? 0) && (negb (y mod 100 =? 0) || (y mod 400 =? 0)).

Definition days_before_year (y : Z) : Z :=
  let y := y - 1 in
  y * 365 + y / 4 - y / 100 + y / 400.

Definition days_in_month (y m : Z) : Z :=
  if m =? 2 then (if is_leap y then 29 else 28)
  else if (m =? 4) || (m =? 6) || (m =? 9) || (m =? 11) then 30
  else 31.

Definition DAYS_BEFORE_MONTH (m : Z) : Z :=
  match m with
  | 1 => 0 | 2 => 31 | 3 => 59 | 4 => 90 | 5 => 120 | 6 => 151
  | 7 => 181 | 8 => 212 | 9 => 243 | 10 => 273 | 11 => 304 | 12 => 334
  | _ => 0
  end.

Definition days_before_month (y m : Z) : Z :=
  DAYS_BEFORE_MONTH m + (if (2 <? m) && is_leap y then 1 else 0).

Definition ymd2ord (y m d : Z) : Z :=
  days_before_year y + days_before_month y m + d.

Definition DI400Y : Z := 146097.
Definition DI100Y : Z := 36524.
Definition DI4Y : Z := 1461.

(** Ordinal to (year, month, day), with January 1 of year 1 as day 1. *)
Definition ord2ymd (n : Z) : Z * Z * Z :=
  let n := n - 1 in
  let n400 := n / DI400Y in
  let n := n mod DI400Y in
  let y := n400 * 400 + 1 in
  let n100 := n / DI100Y in
  let n := n mod DI100Y in
  let n4 := n / DI4Y in
  let n := n mod DI4Y in
  let n1 := n / 365 in
  let n := n mod 365 in
  let y := y + n100 * 100 + n4 * 4 + n1 in
  if (n1 =? 4) || (n100 =? 4) then (y - 1, 12, 31)
  else
    let leapyear := (n1 =? 3) && (negb (n4 =? 24) || (n100 =? 3)) in
    let m := Z.shiftr (n + 50) 5 in
    let preceding := DAYS_BEFORE_MONTH m + (if (2 <? m) && leapyear then 1 else 0) in
    if n <? preceding then
      let m := m - 1 in
      let preceding :=
        preceding - (days_in_month 1 m + (if (m =? 2) && leapyear then 1 else 0)) in
      (y, m, n - preceding + 1)
    else (y, m, n - preceding + 1).

(** The constructor [datetime(y, m, d, hh, mm, ss, us, tzinfo)] checks
    every field. *)
Definition new_datetime (y m d hh mm ss us : Z) (tz : option Z) : result datetime :=
  if (MINYEAR <=? y) && (y <=? MAXYEAR) && (1 <=? m) && (m <=? 12)
     && (1 <=? d) && (d <=? days_in_month y m)
     && (0 <=? hh) && (hh <=? 23) && (0 <=? mm) && (mm <=? 59)
     && (0 <=? ss) && (ss <=? 59) && (0 <=? us) && (us <=? 999999)
  then Ok (mk_datetime y m d hh mm ss us tz)
  else Raise ValueError.

Definition toordinal (t : datetime) : Z := ymd2ord (year t) (month t) (day t).

(** Monday is 0 and Sunday is 6. *)
Definition weekday (t : datetime) : Z := (toordinal t + 6) mod 7.

(** A [timedelta] is a number of microseconds. *)
Definition timedelta := Z.
Definition US_PER_SECOND : Z := 1000000.
Definition US_PER_DAY : Z := 86400 * US_PER_SECOND.
Definition timedelta_days (n : Z) : timedelta := n * US_PER_DAY.
Definition timedelta_hours (n : Z) : timedelta := n * 3600 * US_PER_SECOND.

(** [t + delta]; a result outside years 1..9999 is an [OverflowError]. *)
Definition add (t : datetime) (delta : timedelta) : result datetime :=
  let total :=
    toordinal t * US_PER_DAY
    + (hour t * 3600 + minute t * 60 + second t) * US_PER_SECOND
    + microsecond t + delta in
  let days := total / US_PER_DAY in
  let rest := total mod US_PER_DAY in
  let secs := rest / US_PER_SECOND in
  let us := rest mod US_PER_SECOND in
  if (0 <? days) && (days <=? MAXORDINAL) then
    let '(y, m, d) := ord2ymd days in
    Ok (mk_datetime y m d (secs / 3600) (secs mod 3600 / 60) (secs mod 60) us (tzinfo t))
  else Raise OverflowError.

(** [t.replace(tzinfo=None)] *)
Definition replace_tzinfo_None (t : datetime) : datetime :=
  mk_datetime (year t) (month t) (day t) (hour t) (minute t) (second t)
    (microsecond t) None.

(** Naive values compare field by field, most significant first. *)
Fixpoint lex_compare (a b : list Z) : comparison :=
  match a, b with
  | x :: a', y :: b' =>
      match x ?= y with
      | Eq => lex_compare a' b'
      | c => c
      end
  | [], [] => Eq
  | [], _ :: _ => Lt
  | _ :: _, [] => Gt
  end.

Definition fields (t : datetime) : list Z :=
  [year t; month t; day t; hour t; minute t; second t; microsecond t].

Definition compare (a b : datetime) : comparison :=
  lex_compare (fields a) (fields b).

Definition leb (a b : datetime) : bool :=
  match compare a b with Gt => false | _ => true end.

Definition ltb (a b : datetime) : bool :=
  match compare a b with Lt => true | _ => false end.

(** *** [strftime] directives *)

Definition digit_char (n : Z) : ascii := ascii_of_nat (48 + Z.to_nat n).

Definition pad2 (n : Z) : string :=
  String (digit_char (n / 10 mod 10)) (String (digit_char (n mod 10)) EmptyString).

Definition pad4 (n : Z) : string :=
  (pad2 (n / 100) ++ pad2 (n mod 100))%string.

(** ["%Y-%m-%d"] *)
Definition strftime_Ymd (t : datetime) : string :=
  (pad4 (year t) ++ "-" ++ pad2 (month t) ++ "-" ++ pad2 (day t))%string.

Definition hour12 (h : Z) : Z := if h mod 12 =? 0 then 12 else h mod 12.

(** ["%I:%M %p"] *)
Definition strftime_IMp (t : datetime) : string :=
  (pad2 (hour12 (hour t)) ++ ":" ++ pad2 (minute t) ++ " "
   ++ (if (hour t <? 12)%Z then "AM" else "PM"))%string.

(** *** [datetime.fromisoformat]

    The documented grammar
    [YYYY-MM-DD[*HH[:MM[:SS[.fff[fff]]]][+HH:MM[:SS[.ffffff]]]]], where [*]
    is any single character; anything else is a [ValueError]. *)

Definition is_digit (c : ascii) : bool :=
  ((48 <=? nat_of_ascii c) && (nat_of_ascii c <=? 57))%nat.

Fixpoint parse_digits (n : nat) (s : list ascii) (acc : Z) : option (Z * list ascii) :=
  match n with
  | O => Some (acc, s)
  | S n' =>
      match s with
      | c :: s' =>
          if is_digit c
          then parse_digits n' s' (10 * acc + Z.of_nat (nat_of_ascii c - 48))
          else None
      | [] => None
      end
  end.

Definition colon : ascii := ascii_of_nat 58.
Definition dot : ascii := ascii_of_nat 46.
Definition plus : ascii := ascii_of_nat 43.
Definition minus : ascii := ascii_of_nat 45.

(** An optional fraction [.fff] or [.ffffff] that ends the text. *)
Definition parse_fraction (s : list ascii) : option Z :=
  match s with
  | [] => Some 0
  | c :: s' =>
      if Ascii.eqb c dot then
        match length s' with
        | 3%nat =>
            match parse_digits 3 s' 0 with
            | Some (f, _) => Some (f * 1000)
            | None => None
            end
        | 6%nat =>
            match parse_digits 6 s' 0 with
            | Some (f, _) => Some f
            | None => None
            end
        | _ => None
        end
      else None
  end.

(** [HH[:MM[:SS[.fff[fff]]]]] *)
Definition parse_hh_mm_ss_ff (s : list ascii) : option (Z * Z * Z * Z) :=
  match parse_digits 2 s 0 with
  | None => None
  | Some (hh, []) => Some (hh, 0, 0, 0)
  | Some (hh, c :: s1) =>
      if negb (Ascii.eqb c colon) then None else
      match parse_digits 2 s1 0 with
      | None => None
      | Some (mm, []) => Some (hh, mm, 0, 0)
      | Some (mm, c' :: s2) =>
          if negb (Ascii.eqb c' colon) then None else
          match parse_digits 2 s2 0 with
          | None => None
          | Some (ss, s3) =>
              match parse_fraction s3 with
              | Some us => Some (hh, mm, ss, us)
              | None => None
              end
          end
      end
  end.

(** Split the time text at its first sign character. *)
Fixpoint split_tz (s : list ascii) : list ascii * option (bool * list ascii) :=
  match s with
  | [] => ([], None)
  | c :: s' =>
      if Ascii.eqb c plus then ([], Some (false, s'))
      else if Ascii.eqb c minus then ([], Some (true, s'))
      else let '(t, tz) := split_tz s' in (c :: t, tz)
  end.

(** The offset text is [HH:MM], [HH:MM:SS] or [HH:MM:SS.ffffff] and the
    offset lies strictly between -24 and +24 hours. *)
Definition parse_tz (negative : bool) (s : list ascii) : option Z :=
  match length s with
  | 5%nat | 8%nat | 15%nat =>
      match parse_hh_mm_ss_ff s with
      | Some (hh, mm, ss, us) =>
          let off := (hh * 3600 + mm * 60 + ss) * US_PER_SECOND + us in
          if off <? US_PER_DAY then Some (if negative then - off else off) else None
      | None => None
      end
  | _ => None
  end.

Definition parse_isoformat_time (s : list ascii)
  : option (Z * Z * Z * Z * option Z) :=
  let '(t, tz) := split_tz s in
  match parse_hh_mm_ss_ff t with
  | None => None
  | Some (hh, mm, ss, us) =>
      match tz with
      | None => Some (hh, mm, ss, us, None)
      | Some (neg, z) =>
          match parse_tz neg z with
          | Some off => Some (hh, mm, ss, us, Some off)
          | None => None
          end
      end
  end.

Definition parse_isoformat_date (s : list ascii) : option (Z * Z * Z * list ascii) :=
  match parse_digits 4 s 0 with
  | Some (y, c1 :: s1) =>
      if negb (Ascii.eqb c1 minus) then None else
      match parse_digits 2 s1 0 with
      | Some (m, c2 :: s2) =>
          if negb (Ascii.eqb c2 minus) then None else
          match parse_digits 2 s2 0 with
          | Some (d, rest) => Some (y, m, d, rest)
          | None => None
          end
      | _ => None
      end
  | _ => None
  end.

Definition fromisoformat (date_string : string) : result datetime :=
  match parse_isoformat_date (list_ascii_of_string date_string) with
  | None => Raise ValueError
  | Some (y, m, d, []) => new_datetime y m d 0 0 0 0 None
  | Some (y, m, d, _ :: tstr) =>
      match parse_isoformat_time tstr with
      | None => Raise ValueError
      | Some (hh, mm, ss, us, tz) => new_datetime y m d hh mm ss us tz
      end
  end.

End Datetime.

(** ** [app.py] *)

Module App.
Import Py Datetime.

(** *** Configuration *)

Definition getenv (environ : gmap string string) (name dflt : string) : string :=
  default dflt (environ !! name).

Definition TRELLO_API_KEY (environ : gmap string string) : string :=
  getenv environ "TRELLO_API_KEY" "your_api_key_here".

Definition TRELLO_TOKEN (environ : gmap string string) : string :=
  getenv environ "TRELLO_TOKEN" "your_token_here".

(** *** [convert_to_canada_central_time] *)

(** [s.replace('Z', '+00:00')] *)
Fixpoint replace_Z (s : string) : string :=
  match s with
  | EmptyString => EmptyString
  | String c s' =>
      if Ascii.eqb c "Z" then "+00:00" ++ replace_Z s' else String c (replace_Z s')
  end.

(** [s.lstrip('0')] *)
Fixpoint lstrip_0 (s : string) : string :=
  match s with
  | String c s' => if Ascii.eqb c "0" then lstrip_0 s' else s
  | EmptyString => s
  end.

Definition dst_start (year : Z) : result datetime :=
  let? march8 := new_datetime year 3 8 0 0 0 0 None in
  add march8 (timedelta_days ((6 - weekday march8) mod 7 + 7)).

Definition dst_end (year : Z) : result datetime :=
  let? november1 := new_datetime year 11 1 0 0 0 0 None in
  add november1 (timedelta_days ((6 - weekday november1) mod 7)).

(** The offset and the label chosen for a parsed timestamp. *)
Definition offset_and_label (parsed_date : datetime) : result (timedelta * string) :=
  let year := Datetime.year parsed_date in
  let? dst_start := dst_start year in
  let? dst_end := dst_end year in
  let naive := replace_tzinfo_None parsed_date in
  if Datetime.leb dst_start naive && Datetime.ltb naive dst_end
  then Ok (timedelta_hours (-5), "CDT")
  else Ok (timedelta_hours (-6), "CST").

(** The body of the [try] block. *)
Definition localize (utc_datetime_str : json) : result json :=
  match utc_datetime_str with
  | JStr s =>
      let? parsed_date := fromisoformat (replace_Z s) in
      let? ol := offset_and_label parsed_date in
      let offset := fst ol in
      let timezone_label := snd ol in
      let? central_time := add parsed_date offset in
      let formatted_time := lstrip_0 (strftime_IMp central_time) in
      Ok (JStr (strftime_Ymd central_time ++ " " ++ formatted_time ++ " " ++ timezone_label))
  | _ => Raise AttributeError
  end.

Definition convert_to_canada_central_time (utc_datetime_str : json) : result json :=
  match localize utc_datetime_str with
  | Ok formatted => Ok formatted
  | Raise _ =>
      let? n := len utc_datetime_str in
      if (16 <=? n)%nat then slice_to 16 utc_datetime_str else Ok utc_datetime_str
  end.

(** *** The upstream service *)

(** [requests.get(url, params={'key': ..., 'token': ...})] *)
Record request : Type := {
  url : string;
  params_key : string;
  params_token : string
}.

(** What a request comes back with: [requests.get] raises, or there is a
    response with a status code and a body; [body = None] is a body that
    [response.json()] cannot decode. *)
Inductive reply : Type :=
| ConnectionError (msg : string)
| Response (status_code : Z) (body : option json).

(** The reply to a request, given how many requests the process has made
    before it. *)
Definition upstream : Type := nat → request → reply.

(** *** State *)

Record TrelloAPI : Type := {
  api_key : string;
  token : string;
  base_url : string;
  member_cache : gmap key json;
  list_cache : gmap key json
}.

Record TaskRecord : Type := {
  Client_Name : json;
  Project_Name : json;
  Status : json;
  Assigned_To : json;
  Step : json;
  Step_Assigned_To : json;
  Step_Status : json;
  Due_Date : json;
  Trello_Card_Link : json;
  Comment : json;
  Notes : json
}.

(** What the code under [sync_trello] reads and writes: the number of
    requests made so far, the client object, the module-level set
    [processed_cards] and the local list [all_tasks]. *)
Record state : Type := {
  clock : nat;
  trello_api : TrelloAPI;
  processed_cards : gset key;
  all_tasks : list TaskRecord
}.

(** Stateful code that may raise; the state at the raise is kept. *)
Definition M (A : Type) : Type := state → result A * state.

Definition ret {A} (a : A) : M A := fun st => (Ok a, st).

Definition raise {A} (e : exn) : M A := fun st => (Raise e, st).

Definition bind {A B} (m : M A) (k : A → M B) : M B :=
  fun st =>
    match m st with
    | (Ok a, st') => k a st'
    | (Raise e, st') => (Raise e, st')
    end.

Definition lift {A} (r : result A) : M A := fun st => (r, st).

Definition gets {A} (f : state → A) : M A := fun st => (Ok (f st), st).

Definition modify (f : state → state) : M unit := fun st => (Ok tt, f st).

Notation "'let*' x ':=' m 'in' k" := (bind m (fun x => k))
  (at level 10, x pattern, m at level 100, k at level 200,
   format "'[v' 'let*'  x  ':='  m  'in' '/' k ']'").

Notation "m ;; k" := (bind m (fun _ => k))
  (at level 100, k at level 200, right associativity,
   format "'[v' m  ;; '/' k ']'").

(** [for x in l: body] *)
Fixpoint for_each {A} (l : list A) (body : A → M unit) : M unit :=
  match l with
  | [] => ret tt
  | x :: l' => body x;; for_each l' body
  end.

(** A [for] loop that builds a local value. *)
Fixpoint fold_each {A B} (l : list A) (body : B → A → M B) (acc : B) : M B :=
  match l with
  | [] => ret acc
  | x :: l' => let* acc' := body acc x in fold_each l' body acc'
  end.

Definition tick (st : state) : state :=
  {| clock := S (clock st); trello_api := trello_api st;
     processed_cards := processed_cards st; all_tasks := all_tasks st |}.

Definition set_member_cache (k : key) (name : json) (st : state) : state :=
  let self := trello_api st in
  {| clock := clock st;
     trello_api :=
       {| api_key := api_key self; token := token self; base_url := base_url self;
          member_cache := <[k := name]> (member_cache self);
          list_cache := list_cache self |};
     processed_cards := processed_cards st; all_tasks := all_tasks st |}.

Definition set_list_cache (k : key) (name : json) (st : state) : state :=
  let self := trello_api st in
  {| clock := clock st;
     trello_api :=
       {| api_key := api_key self; token := token self; base_url := base_url self;
          member_cache := member_cache self;
          list_cache := <[k := name]> (list_cache self) |};
     processed_cards := processed_cards st; all_tasks := all_tasks st |}.

(** [all_tasks.append(task_record)] *)
Definition append_task (r : TaskRecord) (st : state) : state :=
  {| clock := clock st; trello_api := trello_api st;
     processed_cards := processed_cards st; all_tasks := all_tasks st ++ [r] |}.

(** [processed_cards.add(card_id)] *)
Definition add_processed (k : key) (st : state) : state :=
  {| clock := clock st; trello_api := trello_api st;
     processed_cards := {[k]} ∪ processed_cards st; all_tasks := all_tasks st |}.

(** *** [class TrelloAPI] *)

Section Client.
Variable w : upstream.

(** [TrelloAPI.__init__] *)
Definition TrelloAPI_init (environ : gmap string string) : TrelloAPI :=
  {| api_key := TRELLO_API_KEY environ;
     token := TRELLO_TOKEN environ;
     base_url := "https://api.trello.com/1";
     member_cache := ∅;
     list_cache := ∅ |}.

(** [requests.get]: one more request has been made, whatever comes back. *)
Definition requests_get (u : string) (k t : string) : M (Z * option json) :=
  fun st =>
    match w (clock st) {| url := u; params_key := k; params_token := t |} with
    | ConnectionError msg => (Raise (RequestException msg), tick st)
    | Response code body => (Ok (code, body), tick st)
    end.

(** [response.json()] *)
Definition response_json (response : Z * option json) : result json :=
  match snd response with
  | Some j => Ok j
  | None => Raise JSONDecodeError
  end.

(** [None] is [JNull]. *)
Definition _make_request (endpoint : string) : M json :=
  let* self := gets trello_api in
  let u := base_url self ++ endpoint in
  let* response := requests_get u (api_key self) (token self) in
  if negb (fst response =? 200)%Z then ret JNull
  else lift (response_json response).

(** [m.get('fullName') or m.get('username') or m.get('displayName') or
    'Unknown'], the expression [get_member_name] and [get_board_members]
    share. *)
Definition full_user_display_or_Unknown (m : json) : result json :=
  let? full := get m "fullName" in
  if truthy full then Ok full else
  let? user := get m "username" in
  if truthy user then Ok user else
  let? display := get m "displayName" in
  Ok (py_or display (JStr "Unknown")).

Definition get_member_name (member_id : json) : M json :=
  let* k := lift (hash member_id) in
  let* self := gets trello_api in
  match member_cache self !! k with
  | Some name => ret name
  | None =>
      let* member_data := _make_request ("/members/" ++ str member_id) in
      if truthy member_data then
        let* name := lift (full_user_display_or_Unknown member_data) in
        modify (set_member_cache k name);;
        ret name
      else ret (JStr "Unknown")
  end.

Definition get_list_name (list_id : json) : M json :=
  let* k := lift (hash list_id) in
  let* self := gets trello_api in
  match list_cache self !! k with
  | Some name => ret name
  | None =>
      let* list_data := _make_request ("/lists/" ++ str list_id) in
      if truthy list_data then
        let* name := lift (get_default list_data "name" (JStr "Unknown List")) in
        modify (set_list_cache k name);;
        ret name
      else ret (JStr "Unknown List")
  end.

Definition get_all_boards : M json :=
  let* r := _make_request "/members/me/boards" in
  ret (py_or r (JArr [])).

Definition get_board_members (board_id : json) : M (gmap key json) :=
  let* r := _make_request ("/boards/" ++ str board_id ++ "/members") in
  let members := py_or r (JArr []) in
  let* members := lift (iter members) in
  fold_each members
    (fun member_lookup member =>
       let* member_id := lift (get member "id") in
       let* member_name := lift (full_user_display_or_Unknown member) in
       let* k := lift (hash member_id) in
       modify (set_member_cache k member_name);;
       ret (<[k := member_name]> member_lookup))
    ∅.

Definition get_cards_on_board (board_id : json) : M json :=
  let endpoint := "/boards/" ++ str board_id ++ "/cards?members=true&list=true" in
  let* r := _make_request endpoint in
  ret (py_or r (JArr [])).

Definition get_card_members (card : json) : result json :=
  let? members := get_default card "members" (JArr []) in
  let? members := iter members in
  let? member_names :=
    result_mapM
      (fun member =>
         let? full := get member "fullName" in
         if truthy full then Ok full
         else get_default member "username" (JStr "Unknown"))
      members in
  match member_names with
  | [] => Ok (JStr EmptyString)
  | _ => join ", " member_names
  end.

Definition newline : string := String (ascii_of_nat 10) EmptyString.

Definition get_card_activity (card_id : json) : M json :=
  let* r := _make_request ("/cards/" ++ str card_id ++ "/actions?filter=commentCard") in
  let actions := py_or r (JArr []) in
  lift (
    let? actions := iter actions in
    let? comments :=
      result_mapM
        (fun action =>
           let? type := get action "type" in
           if eq_str type "commentCard" then
             let? data := get_default action "data" (JObj []) in
             let? comment_text := get_default data "text" (JStr EmptyString) in
             let? creator := get_default action "memberCreator" (JObj []) in
             let? member_name := get_default creator "fullName" (JStr "Unknown") in
             let? date := get_default action "date" (JStr EmptyString) in
             let? date := slice_to 10 date in
             Ok [str member_name ++ " (" ++ str date ++ "): " ++ str comment_text]
           else Ok [])
        actions in
    Ok (JStr (join_strings newline (concat comments)))).

(** An entry of [all_checklist_items]. *)
Record checklist_item : Type := {
  name : json;
  status : json;
  assigned_to : json;
  due_date : json
}.

(** The body of the inner loop of [get_checklist_items_detailed]. *)
Definition checklist_item_of (member_lookup : gmap key json) (item : json)
  : result checklist_item :=
  let? item_name := getitem item "name" in
  let? state := getitem item "state" in
  let status := if eq_str state "complete" then "Complete" else "Pending" in
  let? has_idMembers := contains "idMembers" item in
  let? idMembers := if has_idMembers then getitem item "idMembers" else Ok JNull in
  let? assignee_ids :=
    if has_idMembers && truthy idMembers then Ok idMembers
    else
      let? has_idMember := contains "idMember" item in
      let? idMember := if has_idMember then getitem item "idMember" else Ok JNull in
      if has_idMember && truthy idMember then Ok (JArr [idMember])
      else Ok (JArr []) in
  let? assigned_to :=
    if truthy assignee_ids then
      let? ids := iter assignee_ids in
      let? assignee_names :=
        result_mapM
          (fun assignee_id =>
             let? k := hash assignee_id in
             match member_lookup !! k with
             | Some member_name => Ok [member_name]
             | None => Ok []
             end)
          ids in
      join ", " (concat assignee_names)
    else Ok (JStr EmptyString) in
  let? due := get_default item "due" (JStr EmptyString) in
  let? due_date := if truthy due then convert_to_canada_central_time due else Ok due in
  Ok {| name := item_name; status := JStr status;
        assigned_to := assigned_to; due_date := due_date |}.

Definition get_checklist_items_detailed (card_id : json) (member_lookup : gmap key json)
  : M (list checklist_item) :=
  let* r := _make_request ("/cards/" ++ str card_id ++ "/checklists") in
  let checklists := py_or r (JArr []) in
  lift (
    let? checklists := iter checklists in
    let? per_checklist :=
      result_mapM
        (fun checklist =>
           let? check_items := get_default checklist "checkItems" (JArr []) in
           let? check_items := iter check_items in
           result_mapM (checklist_item_of member_lookup) check_items)
        checklists in
    Ok (concat per_checklist)).

End Client.
(** *** The [/sync] route *)

(** A Flask response: [jsonify({"error": msg}), status], the same with
    [str(e)] of a caught exception and status 500, or the success body. *)
Inductive response : Type :=
| error_response (error : string) (status : Z)
| exception_response (e : exn)
| success_response (timestamp : string) (total_tasks : nat) (tasks : list TaskRecord).

Definition http_status (r : response) : Z :=
  match r with
  | error_response _ status => status
  | exception_response _ => 500
  | success_response _ _ _ => 200
  end.

(** The records a response carries. *)
Definition records (r : response) : list TaskRecord :=
  match r with
  | success_response _ _ tasks => tasks
  | _ => []
  end.

(** What outlives a request: the requests made so far and the module-level
    [processed_cards]. *)
Record process : Type := {
  requests_made : nat;
  seen_cards : gset key
}.

Section Sync.
Variable w : upstream.

Definition task_record (board_name card_name list_name card_members card_url
                        card_activity : json) (item : checklist_item) : TaskRecord :=
  {| Client_Name := board_name;
     Project_Name := card_name;
     Status := list_name;
     Assigned_To := card_members;
     Step := name item;
     Step_Assigned_To := assigned_to item;
     Step_Status := status item;
     Due_Date := due_date item;
     Trello_Card_Link := card_url;
     Comment := card_activity;
     Notes := JStr EmptyString |}.

(** Lines 224-229: the name of the card's list. *)
Definition card_list_name (card : json) : M json :=
  let* has_list := lift (contains "list" card) in
  let* list := lift (if has_list then getitem card "list" else Ok JNull) in
  if has_list && truthy list then
    lift (get_default list "name" (JStr "Unknown List"))
  else
    let* idList := lift (get card "idList") in
    if truthy idList then
      let* list_id := lift (getitem card "idList") in
      get_list_name w list_id
    else ret (JStr "Unknown List").

(** The body of the loop over [active_cards]. *)
Definition process_card (board_name : json) (member_lookup : gmap key json)
    (card : json) : M unit :=
  let* card_id := lift (getitem card "id") in
  let* card_name := lift (getitem card "name") in
  let* card_url := lift (getitem card "shortUrl") in
  let* k := lift (hash card_id) in
  let* seen := gets processed_cards in
  if bool_decide (k ∈ seen) then ret tt
  else
    let* card_members := lift (get_card_members card) in
    let* list_name := card_list_name card in
    let* card_activity := get_card_activity w card_id in
    let* checklist_items := get_checklist_items_detailed w card_id member_lookup in
    match checklist_items with
    | [] => ret tt
    | _ :: _ =>
        for_each checklist_items
          (fun item =>
             modify (append_task
                       (task_record board_name card_name list_name card_members
                          card_url card_activity item)))
    end;;
    modify (add_processed k).

(** [[card for card in all_cards if not card.get('closed', False)]] *)
Definition active_cards_of (all_cards : json) : result (list json) :=
  let? cards := iter all_cards in
  let? kept :=
    result_mapM
      (fun card =>
         let? closed := get_default card "closed" (JBool false) in
         Ok (if truthy closed then [] else [card]))
      cards in
  Ok (concat kept).

(** The body of the loop over [boards]. *)
Definition process_board (board : json) : M unit :=
  let* board_id := lift (getitem board "id") in
  let* board_name := lift (getitem board "name") in
  let* member_lookup := get_board_members w board_id in
  let* all_cards := get_cards_on_board w board_id in
  let* active_cards := lift (active_cards_of all_cards) in
  for_each active_cards (process_card board_name member_lookup).

(** The body of the [try] block, after [trello_api] and [all_tasks] are
    set up; [now] is [datetime.now().isoformat()]. *)
Definition flatten (now : string) : M response :=
  let* boards := get_all_boards w in
  if negb (truthy boards) then ret (error_response "No boards found" 404)
  else
    let* boards := lift (iter boards) in
    for_each boards process_board;;
    let* all_tasks := gets all_tasks in
    ret (success_response now (length all_tasks) all_tasks).

(** The state a request starts its [try] block in: a new client, an empty
    [all_tasks], and the process's [processed_cards]. *)
Definition request_state (environ : gmap string string) (p : process) : state :=
  {| clock := requests_made p;
     trello_api := TrelloAPI_init environ;
     processed_cards := seen_cards p;
     all_tasks := [] |}.

Definition process_of (st : state) : process :=
  {| requests_made := clock st; seen_cards := processed_cards st |}.

Definition sync_trello (environ : gmap string string) (now : string) (p : process)
  : response * process :=
  if String.eqb (TRELLO_API_KEY environ) "your_api_key_here"
     || String.eqb (TRELLO_TOKEN environ) "your_token_here"
  then (error_response "API credentials not set" 400, p)
  else
    match flatten now (request_state environ p) with
    | (Ok r, st) => (r, process_of st)
    | (Raise e, st) => (exception_response e, process_of st)
    end.

End Sync.

End App.

(** ** Notions the statements use, and concrete scenarios *)

Module Scenarios.
Import Py Datetime App.
Local Open Scope Z_scope.

(** The day of the month of the [n]-th Sunday of month [m] of year [y]:
    the first Sunday is the first day of the month that is a Sunday, and
    the others follow at seven days each. *)
Definition nth_sunday (y m : Z) (n : Z) : Z :=
  let first := mk_datetime y m 1 0 0 0 0 None in
  1 + (6 - weekday first) mod 7 + 7 * (n - 1).

Definition midnight (y m d : Z) : datetime := mk_datetime y m d 0 0 0 0 None.

Definition is_midnight (t : datetime) (y m d : Z) : bool :=
  (year t =? y) && (month t =? m) && (day t =? d) && (hour t =? 0)
  && (minute t =? 0) && (second t =? 0) && (microsecond t =? 0)
  && bool_decide (tzinfo t = None).

(** [dst_start] is midnight of the third Sunday of March and [dst_end]
    midnight of the first Sunday of November. *)
Definition dst_window_check (y : Z) : bool :=
  match dst_start y, dst_end y with
  | Ok s, Ok e =>
      is_midnight s y 3 (nth_sunday y 3 3)
      && is_midnight e y 11 (nth_sunday y 11 1)
      && (weekday s =? 6) && (weekday e =? 6)
      && (15 <=? day s) && (day s <=? 21) && (1 <=? day e) && (day e <=? 7)
  | _, _ => false
  end.

(** [f y && f (y + 1) && ...], [n] values in all. *)
Fixpoint all_between (n : nat) (y : Z) (f : Z → bool) : bool :=
  match n with
  | O => true
  | S n' => f y && all_between n' (y + 1) f
  end.

(** What [_make_request] makes of a reply. *)
Definition reply_value (r : reply) : result json :=
  match r with
  | ConnectionError msg => Raise (RequestException msg)
  | Response code body =>
      if negb (code =? 200) then Ok JNull else response_json (code, body)
  end.

(** The request [_make_request] sends for an endpoint. *)
Definition request_for (st : state) (endpoint : string) : request :=
  {| url := (base_url (trello_api st) ++ endpoint)%string;
     params_key := api_key (trello_api st);
     params_token := token (trello_api st) |}.

(** A reply with a status other than 200. *)
Definition non_success (r : reply) : Prop :=
  ∃ code body, r = Response code body ∧ code ≠ 200.

(** The key under which [processed_cards] records a card. *)
Definition card_key (card : json) : result key :=
  let? card_id := getitem card "id" in
  hash card_id.

(** A card the loop body reads and then skips: its three mandatory fields
    are there and its identifier is in the set [seen]. *)
Definition skippable (seen : gset key) (card : json) : Prop :=
  ∃ card_id card_name card_url k,
    getitem card "id" = Ok card_id
    ∧ getitem card "name" = Ok card_name
    ∧ getitem card "shortUrl" = Ok card_url
    ∧ hash card_id = Ok k
    ∧ k ∈ seen.


(** [all_tasks] extended by several records. *)
Definition append_tasks (rs : list TaskRecord) (st : state) : state :=
  {| clock := clock st; trello_api := trello_api st;
     processed_cards := processed_cards st; all_tasks := all_tasks st ++ rs |}.

(** What no method of the client touches: the deduplication set, the
    records collected so far and the client's credentials and base URL;
    the number of requests made can only grow. *)
Definition client_frame (st st' : state) : Prop :=
  processed_cards st' = processed_cards st
  ∧ all_tasks st' = all_tasks st
  ∧ api_key (trello_api st') = api_key (trello_api st)
  ∧ token (trello_api st') = token (trello_api st)
  ∧ base_url (trello_api st') = base_url (trello_api st)
  ∧ (clock st ≤ clock st')%nat.

(** What the whole pass never undoes: identifiers stay in the set, the
    collected records are only extended, the credentials stay. *)
Definition pass_frame (st st' : state) : Prop :=
  processed_cards st ⊆ processed_cards st'
  ∧ (∃ rs, all_tasks st' = (all_tasks st ++ rs)%list)
  ∧ api_key (trello_api st') = api_key (trello_api st)
  ∧ token (trello_api st') = token (trello_api st)
  ∧ base_url (trello_api st') = base_url (trello_api st)
  ∧ (clock st ≤ clock st')%nat.

(** What the caches keep while one client object lives: a member
    identifier that has a cached name keeps one, and a list identifier
    keeps the very name that was cached. *)
Definition cache_kept (st st' : state) : Prop :=
  (∀ k, is_Some (member_cache (trello_api st) !! k) →
        is_Some (member_cache (trello_api st') !! k))
  ∧ (∀ k name, list_cache (trello_api st) !! k = Some name →
               list_cache (trello_api st') !! k = Some name).

(** Two states whose clients send the same requests. *)
Definition same_client (s t : state) : Prop :=
  api_key (trello_api s) = api_key (trello_api t)
  ∧ token (trello_api s) = token (trello_api t)
  ∧ base_url (trello_api s) = base_url (trello_api t).

(** [m] returns or raises the same whatever state it starts in. *)
Definition state_blind {A} (m : M A) : Prop :=
  ∀ s t, fst (m s) = fst (m t).

(** [m] relates every state it starts in to the state it leaves. *)
Definition preserves (R : relation state) {A} (m : M A) : Prop :=
  ∀ st, R st (snd (m st)).

(** Upstream data that does not change: the reply depends on the request
    alone. *)
Definition unchanging (w : upstream) : Prop :=
  ∀ n m r, w n r = w m r.

(** What a process can become by serving further [/sync] requests. *)
Inductive later (w : upstream) (environ : gmap string string) : process → process → Prop :=
| later_refl (p : process) : later w environ p p
| later_sync (p q : process) (now : string) :
    later w environ p q → later w environ p (snd (sync_trello w environ now q)).

(** Some environment with both credentials set. *)
Definition environ_set : gmap string string :=
  {[ "TRELLO_API_KEY"%string := "key-1"%string; "TRELLO_TOKEN"%string := "token-1"%string ]}.

Definition process_start : process := {| requests_made := 0; seen_cards := ∅ |}.

(** An upstream that rejects every request with status 401. *)
Definition upstream_unauthorized : upstream := fun _ _ => Response 401 None.

(** An upstream no request reaches. *)
Definition upstream_down : upstream := fun _ _ => ConnectionError "connection refused".

(** An upstream given by a table from URLs to replies; a URL outside the
    table is answered 404. *)
Fixpoint route (table : list (string * reply)) (u : string) : reply :=
  match table with
  | [] => Response 404 None
  | (u', r) :: table' => if String.eqb u u' then r else route table' u
  end.

Definition upstream_of (table : list (string * reply)) : upstream :=
  fun _ r => route table (url r).

Definition ok (j : json) : reply := Response 200 (Some j).

Definition board_b1 : json := JObj [("id", JStr "b1"); ("name", JStr "Acme")]%string.

Definition member_m1 : json := JObj [("id", JStr "m1"); ("fullName", JStr "Ann")]%string.

(** A card in list [L1] with two members; the list is not embedded. *)
Definition card_c1 : json :=
  JObj [("id", JStr "c1"); ("name", JStr "Website");
        ("shortUrl", JStr "https://trello.com/c/c1");
        ("closed", JBool false); ("idList", JStr "L1");
        ("members", JArr [JObj [("fullName", JStr "Ann")]; JObj [("username", JStr "bob")]])]%string.

(** A card without a name. *)
Definition card_c2_nameless : json :=
  JObj [("id", JStr "c2"); ("shortUrl", JStr "https://trello.com/c/c2")]%string.

Definition card_c2 : json :=
  JObj [("id", JStr "c2"); ("name", JStr "Launch");
        ("shortUrl", JStr "https://trello.com/c/c2")]%string.

(** A second card in list [L1]. *)
Definition card_c3 : json :=
  JObj [("id", JStr "c3"); ("name", JStr "Invoice"); ("shortUrl", JStr "https://trello.com/c/c3");
        ("idList", JStr "L1")]%string.

Definition checklists_c1 : json :=
  JArr [JObj [("checkItems",
               JArr [JObj [("name", JStr "Draft"); ("state", JStr "complete");
                           ("idMember", JStr "m1"); ("due", JStr "2024-07-04T18:00:00.000Z")];
                     JObj [("name", JStr "Review"); ("state", JStr "incomplete")]])]]%string.

Definition checklists_one_item : json :=
  JArr [JObj [("checkItems",
               JArr [JObj [("name", JStr "Send"); ("state", JStr "incomplete")]])]]%string.

Definition comments_c1 : json :=
  JArr [JObj [("type", JStr "commentCard"); ("data", JObj [("text", JStr "on track")]);
              ("memberCreator", JObj [("fullName", JStr "Ann")]);
              ("date", JStr "2024-07-01T09:30:00.000Z")]]%string.

Definition base_routes : list (string * reply) :=
  [("https://api.trello.com/1/members/me/boards", ok (JArr [board_b1]));
   ("https://api.trello.com/1/boards/b1/members", ok (JArr [member_m1]));
   ("https://api.trello.com/1/lists/L1", ok (JObj [("name", JStr "Todo")]));
   ("https://api.trello.com/1/cards/c1/actions?filter=commentCard", ok comments_c1);
   ("https://api.trello.com/1/cards/c1/checklists", ok checklists_c1)]%string.

Definition cards_url : string :=
  "https://api.trello.com/1/boards/b1/cards?members=true&list=true".

(** One board with the single card [c1], which has two check items. *)
Definition upstream_one_card : upstream :=
  upstream_of ((cards_url, ok (JArr [card_c1])) :: base_routes).


(** The card [c1] followed by a card without a name, then, from the
    seventh request of the process on, by the same card with its name and
    one check item. *)
Definition upstream_nameless_then_fixed : upstream :=
  fun n r =>
    if (n <? 7)%nat
    then upstream_of ((cards_url, ok (JArr [card_c1; card_c2_nameless])) :: base_routes) n r
    else upstream_of
           ((cards_url, ok (JArr [card_c1; card_c2]))
            :: ("https://api.trello.com/1/cards/c2/checklists"%string, ok checklists_one_item)
            :: base_routes) n r.

(** The card [c1] in list [L1]; from the seventh request on a second card
    [c3] in the same list, while the list itself can no longer be fetched. *)
Definition upstream_list_gone : upstream :=
  fun n r =>
    if (n <? 6)%nat
    then upstream_one_card n r
    else upstream_of
           [("https://api.trello.com/1/members/me/boards"%string, ok (JArr [board_b1]));
            ("https://api.trello.com/1/boards/b1/members"%string, ok (JArr [member_m1]));
            (cards_url, ok (JArr [card_c1; card_c3]));
            ("https://api.trello.com/1/cards/c3/checklists"%string, ok checklists_one_item)]
           n r.

Definition state_start (environ : gmap string string) : state :=
  request_state environ process_start.





(** *** Notions and scenarios for the remaining operations *)

(** The number of requests made stands still. *)
Definition same_clock (st st' : state) : Prop := clock st' = clock st.

(** What the consumer of a response can rely on in a record. *)
Definition well_formed_record (r : TaskRecord) : Prop :=
  Notes r = JStr EmptyString
  ∧ (Step_Status r = JStr "Complete" ∨ Step_Status r = JStr "Pending")
  ∧ (∃ s, Assigned_To r = JStr s)
  ∧ (∃ s, Step_Assigned_To r = JStr s).

(** A comment action with its author, date and text all there, as strings. *)
Definition is_comment (action : json) (author date text : string) : Prop :=
  ∃ ad dd md,
    action = JObj ad
    ∧ assoc "type" ad = Some (JStr "commentCard")
    ∧ assoc "data" ad = Some (JObj dd)
    ∧ assoc "text" dd = Some (JStr text)
    ∧ assoc "memberCreator" ad = Some (JObj md)
    ∧ assoc "fullName" md = Some (JStr author)
    ∧ assoc "date" ad = Some (JStr date).

(** ["<author> (<day>): <text>"] *)
Definition comment_line (author date text : string) : string :=
  (author ++ " (" ++ substring 0 10 date ++ "): " ++ text)%string.

(** A card whose [closed] field is truthy. *)
Definition is_archived (card : json) : Prop :=
  ∃ d v, card = JObj d ∧ assoc "closed" d = Some v ∧ truthy v = true.

(** A member with a non-empty full name. *)
Definition has_full_name (member : json) (full : string) : Prop :=
  ∃ md, member = JObj md ∧ assoc "fullName" md = Some (JStr full) ∧ full ≠ EmptyString.

(** An archived card that has a check item. *)
Definition card_archived : json :=
  JObj [("id", JStr "c1"); ("name", JStr "Website");
        ("shortUrl", JStr "https://trello.com/c/c1"); ("closed", JBool true)]%string.

Definition upstream_archived_card : upstream :=
  upstream_of ((cards_url, ok (JArr [card_archived])) :: base_routes).

(** An upstream that knows member [m1] and nothing else. *)
Definition upstream_member_m1 : upstream :=
  upstream_of [("https://api.trello.com/1/members/m1"%string, ok member_m1)].

(** A check item assigned through both fields. *)
Definition item_both_assignees : list (string * json) :=
  [("name", JStr "Draft"); ("state", JStr "incomplete");
   ("idMembers", JArr [JStr "m1"])]%string.

End Scenarios.

(** * Properties *)

Import Py Datetime App Scenarios.





(** ** The timestamp localizer *)

Section Localizer.
Local Open Scope Z_scope.

Lemma all_between_spec (f : Z → bool) (n : nat) (y z : Z) :
  all_between n y f = true → y ≤ z < y + Z.of_nat n → f z = true.
Proof.
  revert y. induction n as [|n IH]; intros y Hall Hz; [lia|].
  cbn [all_between] in Hall. apply andb_prop in Hall as [Hy Hrest].
  destruct (decide (z = y)) as [->|Hne]; [exact Hy|].
  apply (IH (y + 1)); [exact Hrest | lia].
Qed.

Lemma dst_window_checked : all_between (Z.to_nat 9999) 1 dst_window_check = true.
Proof. vm_cast_no_check (eq_refl true). Qed.

Lemma is_midnight_eq (t : datetime) (y m d : Z) :
  is_midnight t y m d = true → t = midnight y m d.
Proof.
  unfold is_midnight, midnight. destruct t as [ty tm td th tmi ts tu tz]; cbn.
  rewrite !andb_true_iff, !Z.eqb_eq, bool_decide_eq_true.
  intros [[[[[[[-> ->] ->] ->] ->] ->] ->] ->]. reflexivity.
Qed.

(** In every year the library supports, the window of the code opens at
    midnight of the third Sunday of March (a day from the 15th to the
    21st) and closes at midnight of the first Sunday of November. *)
Lemma dst_window_every_year (y : Z) :
  MINYEAR ≤ y ≤ MAXYEAR →
  dst_start y = Ok (midnight y 3 (nth_sunday y 3 3))
  ∧ dst_end y = Ok (midnight y 11 (nth_sunday y 11 1))
  ∧ 15 ≤ nth_sunday y 3 3 ≤ 21
  ∧ 1 ≤ nth_sunday y 11 1 ≤ 7
  ∧ weekday (midnight y 3 (nth_sunday y 3 3)) = 6
  ∧ weekday (midnight y 11 (nth_sunday y 11 1)) = 6.
Proof.
  unfold MINYEAR, MAXYEAR. intros Hy.
  assert (Hc : dst_window_check y = true).
  { apply (all_between_spec _ (Z.to_nat 9999) 1); [exact dst_window_checked | lia]. }
  unfold dst_window_check in Hc.
  destruct (dst_start y) as [s|]; [|discriminate].
  destruct (dst_end y) as [e|]; [|discriminate].
  rewrite !andb_true_iff, !Z.eqb_eq, !Z.leb_le in Hc.
  destruct Hc as [[[[[[[Hs He] Hws] Hwe] Hs1] Hs2] He1] He2].
  apply is_midnight_eq in Hs, He. subst s e. cbn [day midnight] in *.
  repeat split; try assumption; lia.
Qed.


(** C8: the two timestamps of the specification are localized to
    ["2024-07-04 1:00 PM CDT"] and ["2024-01-04 12:00 PM CST"]: date, hour
    without its leading zero, minutes, AM/PM and the zone label. *)
Theorem C8_localizer_examples :
  convert_to_canada_central_time (JStr "2024-07-04T18:00:00Z")
    = Ok (JStr "2024-07-04 1:00 PM CDT")
  ∧ convert_to_canada_central_time (JStr "2024-01-04T18:00:00Z")
    = Ok (JStr "2024-01-04 12:00 PM CST").
Proof. split; vm_compute; reflexivity. Qed.

(** C1 (the code departs from the claim): 12 March 2024, 18:00 lies after
    the second Sunday of March 2024 (the 10th) and before the first Sunday
    of November (the 3rd), yet the code opens its window on the third
    Sunday (the 17th), applies -6 hours and labels the result CST. *)
Theorem C1_window_opens_on_third_sunday :
  let parsed := mk_datetime 2024 3 12 18 0 0 0 (Some 0) in
  fromisoformat (replace_Z "2024-03-12T18:00:00Z") = Ok parsed
  ∧ nth_sunday 2024 3 2 = 10
  ∧ nth_sunday 2024 11 1 = 3
  ∧ Datetime.leb (midnight 2024 3 10) (replace_tzinfo_None parsed) = true
  ∧ Datetime.ltb (replace_tzinfo_None parsed) (midnight 2024 11 3) = true
  ∧ dst_start 2024 = Ok (midnight 2024 3 17)
  ∧ offset_and_label parsed = Ok (timedelta_hours (-6), "CST"%string)
  ∧ convert_to_canada_central_time (JStr "2024-03-12T18:00:00Z")
    = Ok (JStr "2024-03-12 12:00 PM CST").
Proof. cbv zeta. repeat split; vm_compute; reflexivity. Qed.

End Localizer.

(** ** The state-and-exception monad *)

Section Monad.

Lemma bind_Ok {A B} (m : M A) (k : A → M B) st a st' :
  m st = (Ok a, st') → bind m k st = k a st'.
Proof. unfold bind. intros ->. reflexivity. Qed.

Lemma bind_Raise {A B} (m : M A) (k : A → M B) st e st' :
  m st = (Raise e, st') → bind m k st = (Raise e, st').
Proof. unfold bind. intros ->. reflexivity. Qed.

Lemma bind_lift_Ok {A B} (r : result A) (k : A → M B) st a :
  r = Ok a → bind (lift r) k st = k a st.
Proof. intros ->. reflexivity. Qed.

(** A successful bind splits into a successful first part and the rest. *)
Lemma bind_inv_Ok {A B} (m : M A) (k : A → M B) st b st' :
  bind m k st = (Ok b, st') →
  ∃ a st1, m st = (Ok a, st1) ∧ k a st1 = (Ok b, st').
Proof.
  unfold bind. destruct (m st) as [[a|e] st1]; intros H; [eauto | discriminate].
Qed.

Lemma lift_inv_Ok {A} (r : result A) st a st' :
  lift r st = (Ok a, st') → r = Ok a ∧ st' = st.
Proof. unfold lift. intros [= -> ->]. split; reflexivity. Qed.

Lemma for_each_app {A} (l1 l2 : list A) (body : A → M unit) st st1 :
  for_each l1 body st = (Ok tt, st1) →
  for_each (l1 ++ l2) body st = for_each l2 body st1.
Proof.
  revert st. induction l1 as [|x l1 IH]; intros st H; cbn in *.
  - unfold ret in H. injection H as <-. reflexivity.
  - apply bind_inv_Ok in H as ([] & st0 & Hx & Hrest).
    rewrite (bind_Ok _ _ _ _ _ Hx). apply IH. exact Hrest.
Qed.

End Monad.

(** ** Requests *)

Section Requests.
Variable w : upstream.

Lemma _make_request_eq (endpoint : string) (st : state) :
  _make_request w endpoint st
  = (reply_value (w (clock st) (request_for st endpoint)), tick st).
Proof.
  unfold _make_request, bind, gets, requests_get, request_for, reply_value.
  destruct (w (clock st) _) as [msg|code body]; [reflexivity|].
  cbn. destruct (negb (code =? 200)%Z); reflexivity.
Qed.

End Requests.

Section Preserves.
Context (R : relation state) `{!PreOrder R}.

Lemma preserves_ret {A} (a : A) : preserves R (ret a).
Proof. intros st. reflexivity. Qed.

Lemma preserves_raise {A} (e : exn) : preserves R (@raise A e).
Proof. intros st. reflexivity. Qed.

Lemma preserves_lift {A} (r : result A) : preserves R (lift r).
Proof. intros st. reflexivity. Qed.

Lemma preserves_gets {A} (f : state → A) : preserves R (gets f).
Proof. intros st. reflexivity. Qed.

Lemma preserves_modify (f : state → state) :
  (∀ st, R st (f st)) → preserves R (modify f).
Proof. intros H st. apply H. Qed.

Lemma preserves_bind {A B} (m : M A) (k : A → M B) :
  preserves R m → (∀ a, preserves R (k a)) → preserves R (bind m k).
Proof.
  intros Hm Hk st. unfold bind. specialize (Hm st).
  destruct (m st) as [[a|e] st1]; cbn in *; [|exact Hm].
  etransitivity; [exact Hm | apply Hk].
Qed.

Lemma preserves_for_each {A} (l : list A) (body : A → M unit) :
  (∀ x, preserves R (body x)) → preserves R (for_each l body).
Proof.
  intros Hbody. induction l as [|x l IH]; cbn [for_each].
  - apply preserves_ret.
  - apply preserves_bind; [apply Hbody | intros _; exact IH].
Qed.

Lemma preserves_fold_each {A B} (l : list A) (body : B → A → M B) (acc : B) :
  (∀ b x, preserves R (body b x)) → preserves R (fold_each l body acc).
Proof.
  intros Hbody. revert acc. induction l as [|x l IH]; intros acc; cbn [fold_each].
  - apply preserves_ret.
  - apply preserves_bind; [apply Hbody | intros b; apply IH].
Qed.

Lemma preserves_run {A} (m : M A) st r st' :
  preserves R m → m st = (r, st') → R st st'.
Proof. intros Hm Hrun. specialize (Hm st). rewrite Hrun in Hm. exact Hm. Qed.

End Preserves.

Create HintDb frames discriminated.

Ltac preserve :=
  repeat first
    [ match goal with |- PreOrder _ => apply _ end
    | solve [auto 2 with frames nocore]
    | apply preserves_ret | apply preserves_raise | apply preserves_lift
    | apply preserves_gets
    | apply preserves_bind; [ apply _ | | intros ? ]
    | apply preserves_for_each; [ apply _ | intros ? ]
    | apply preserves_fold_each; [ apply _ | intros ? ? ]
    | match goal with
      | |- preserves _ (if ?b then _ else _) => destruct b
      | |- preserves _ (match ?x with _ => _ end) => destruct x
      end
    | assumption ].

#[global] Instance client_frame_preorder : PreOrder client_frame.
Proof.
  split.
  - intros st. unfold client_frame. repeat split; reflexivity.
  - intros a b c (H1 & H2 & H3 & H4 & H5 & H6) (G1 & G2 & G3 & G4 & G5 & G6).
    unfold client_frame. repeat split; try congruence. lia.
Qed.

#[global] Instance pass_frame_preorder : PreOrder pass_frame.
Proof.
  split.
  - intros st. unfold pass_frame. repeat split; try reflexivity.
    exists []. symmetry. apply app_nil_r.
  - intros a b c (H1 & (r1 & H2) & H3 & H4 & H5 & H6) (G1 & (r2 & G2) & G3 & G4 & G5 & G6).
    unfold pass_frame. repeat split; try congruence.
    + set_solver.
    + exists (r1 ++ r2)%list. rewrite G2, H2. symmetry. apply app_assoc.
    + lia.
Qed.

Lemma client_frame_pass_frame st st' : client_frame st st' → pass_frame st st'.
Proof.
  intros (H1 & H2 & H3 & H4 & H5 & H6). unfold pass_frame.
  repeat split; try assumption.
  - rewrite H1. reflexivity.
  - exists []. rewrite H2. symmetry. apply app_nil_r.
Qed.

Lemma preserves_weaken {A} (m : M A) :
  preserves client_frame m → preserves pass_frame m.
Proof. intros H st. apply client_frame_pass_frame, H. Qed.

Section Frames.
Variable w : upstream.

Lemma requests_get_frame u k t : preserves client_frame (requests_get w u k t).
Proof.
  intros st. unfold requests_get.
  destruct (w (clock st) _); cbn; unfold client_frame; cbn; repeat split; lia.
Qed.
Hint Resolve requests_get_frame : frames.

Lemma _make_request_frame endpoint : preserves client_frame (_make_request w endpoint).
Proof. unfold _make_request. preserve. Qed.
Hint Resolve _make_request_frame : frames.

Lemma set_member_cache_frame k name : preserves client_frame (modify (set_member_cache k name)).
Proof. apply preserves_modify. intros st. unfold client_frame. cbn. repeat split; lia. Qed.
Hint Resolve set_member_cache_frame : frames.

Lemma set_list_cache_frame k name : preserves client_frame (modify (set_list_cache k name)).
Proof. apply preserves_modify. intros st. unfold client_frame. cbn. repeat split; lia. Qed.
Hint Resolve set_list_cache_frame : frames.

Lemma get_member_name_frame member_id : preserves client_frame (get_member_name w member_id).
Proof. unfold get_member_name. preserve. Qed.

Lemma get_list_name_frame list_id : preserves client_frame (get_list_name w list_id).
Proof. unfold get_list_name. preserve. Qed.
Hint Resolve get_list_name_frame : frames.

Lemma get_all_boards_frame : preserves client_frame (get_all_boards w).
Proof. unfold get_all_boards. preserve. Qed.

Lemma get_board_members_frame board_id :
  preserves client_frame (get_board_members w board_id).
Proof. unfold get_board_members. preserve. Qed.

Lemma get_cards_on_board_frame board_id :
  preserves client_frame (get_cards_on_board w board_id).
Proof. unfold get_cards_on_board. preserve. Qed.

Lemma get_card_activity_frame card_id :
  preserves client_frame (get_card_activity w card_id).
Proof. unfold get_card_activity. preserve. Qed.

Lemma get_checklist_items_detailed_frame card_id member_lookup :
  preserves client_frame (get_checklist_items_detailed w card_id member_lookup).
Proof. unfold get_checklist_items_detailed. preserve. Qed.

Lemma card_list_name_frame card : preserves client_frame (card_list_name w card).
Proof. unfold card_list_name. preserve. Qed.

Lemma get_all_boards_pass_frame : preserves pass_frame (get_all_boards w).
Proof. apply preserves_weaken, get_all_boards_frame. Qed.

Lemma get_board_members_pass_frame board_id :
  preserves pass_frame (get_board_members w board_id).
Proof. apply preserves_weaken, get_board_members_frame. Qed.

Lemma get_cards_on_board_pass_frame board_id :
  preserves pass_frame (get_cards_on_board w board_id).
Proof. apply preserves_weaken, get_cards_on_board_frame. Qed.

Lemma get_card_activity_pass_frame card_id :
  preserves pass_frame (get_card_activity w card_id).
Proof. apply preserves_weaken, get_card_activity_frame. Qed.

Lemma get_checklist_items_detailed_pass_frame card_id member_lookup :
  preserves pass_frame (get_checklist_items_detailed w card_id member_lookup).
Proof. apply preserves_weaken, get_checklist_items_detailed_frame. Qed.

Lemma card_list_name_pass_frame card : preserves pass_frame (card_list_name w card).
Proof. apply preserves_weaken, card_list_name_frame. Qed.

Lemma append_task_pass_frame r : preserves pass_frame (modify (append_task r)).
Proof.
  apply preserves_modify. intros st.
  unfold pass_frame. cbn. repeat split; try reflexivity. eauto.
Qed.

Lemma add_processed_pass_frame k : preserves pass_frame (modify (add_processed k)).
Proof.
  apply preserves_modify. intros st.
  unfold pass_frame. cbn. repeat split; try reflexivity.
  - set_solver.
  - exists []. symmetry. apply app_nil_r.
Qed.

Hint Resolve get_all_boards_pass_frame get_board_members_pass_frame
  get_cards_on_board_pass_frame get_card_activity_pass_frame
  get_checklist_items_detailed_pass_frame card_list_name_pass_frame
  append_task_pass_frame add_processed_pass_frame : frames.

Lemma process_card_frame board_name member_lookup card :
  preserves pass_frame (process_card w board_name member_lookup card).
Proof. unfold process_card. preserve. Qed.
Hint Resolve process_card_frame : frames.

Lemma process_board_frame board : preserves pass_frame (process_board w board).
Proof. unfold process_board. preserve. Qed.
Hint Resolve process_board_frame : frames.

Lemma flatten_frame now : preserves pass_frame (flatten w now).
Proof. unfold flatten. preserve. Qed.

End Frames.

Section Cards.
Variable w : upstream.

Lemma for_each_append_tasks {A} (f : A → TaskRecord) (items : list A) st :
  for_each items (fun item => modify (append_task (f item))) st
  = (Ok tt, append_tasks (map f items) st).
Proof.
  revert st. induction items as [|x items IH]; intros st; cbn [for_each map].
  - unfold ret, append_tasks. destruct st; cbn. rewrite app_nil_r. reflexivity.
  - unfold bind at 1, modify at 1. rewrite IH.
    unfold append_tasks, append_task; cbn. rewrite <- app_assoc. reflexivity.
Qed.

Lemma process_card_skippable board_name member_lookup card st :
  skippable (processed_cards st) card →
  process_card w board_name member_lookup card st = (Ok tt, st).
Proof.
  intros (card_id & card_name & card_url & k & Hid & Hname & Hurl & Hk & Hin).
  unfold process_card.
  rewrite (bind_lift_Ok _ _ _ _ Hid), (bind_lift_Ok _ _ _ _ Hname),
    (bind_lift_Ok _ _ _ _ Hurl), (bind_lift_Ok _ _ _ _ Hk).
  unfold bind, gets. rewrite bool_decide_eq_true_2; [reflexivity | exact Hin].
Qed.

(** A card whose identifier is in the set leaves the state as it is,
    whether the body returns or raises on a missing field. *)
Lemma process_card_seen board_name member_lookup card k st :
  card_key card = Ok k → k ∈ processed_cards st →
  snd (process_card w board_name member_lookup card st) = st.
Proof.
  unfold card_key, process_card. intros Hkey Hin.
  destruct (getitem card "id") as [card_id|e]; cbn in Hkey; [|discriminate].
  unfold bind at 1, lift at 1.
  unfold bind at 1, lift at 1. destruct (getitem card "name"); [|reflexivity].
  unfold bind at 1, lift at 1. destruct (getitem card "shortUrl"); [|reflexivity].
  unfold bind at 1, lift at 1. rewrite Hkey.
  unfold bind, gets. rewrite bool_decide_eq_true_2; [reflexivity | exact Hin].
Qed.

Lemma process_card_inv board_name member_lookup card st st' :
  process_card w board_name member_lookup card st = (Ok tt, st') →
  ∃ card_id card_name card_url k,
    getitem card "id" = Ok card_id
    ∧ getitem card "name" = Ok card_name
    ∧ getitem card "shortUrl" = Ok card_url
    ∧ hash card_id = Ok k
    ∧ ((k ∈ processed_cards st ∧ st' = st)
       ∨ ((k ∉ processed_cards st)
          ∧ ∃ card_members list_name card_activity checklist_items st1 st2 st3,
              get_card_members card = Ok card_members
              ∧ card_list_name w card st = (Ok list_name, st1)
              ∧ get_card_activity w card_id st1 = (Ok card_activity, st2)
              ∧ get_checklist_items_detailed w card_id member_lookup st2
                = (Ok checklist_items, st3)
              ∧ st' = add_processed k
                        (append_tasks
                           (map (task_record board_name card_name list_name
                                   card_members card_url card_activity)
                              checklist_items) st3))).
Proof.
  unfold process_card. intros H.
  apply bind_inv_Ok in H as (card_id & s & (Hid & ->)%lift_inv_Ok & H).
  apply bind_inv_Ok in H as (card_name & s & (Hname & ->)%lift_inv_Ok & H).
  apply bind_inv_Ok in H as (card_url & s & (Hurl & ->)%lift_inv_Ok & H).
  apply bind_inv_Ok in H as (k & s & (Hk & ->)%lift_inv_Ok & H).
  apply bind_inv_Ok in H as (seen & s & Hseen & H).
  unfold gets in Hseen. injection Hseen as <- <-.
  exists card_id, card_name, card_url, k. repeat split; try assumption.
  case_bool_decide as Hin.
  - left. unfold ret in H. injection H as <-. split; [assumption | reflexivity].
  - right. split; [assumption|].
    apply bind_inv_Ok in H as (card_members & s & (Hmem & ->)%lift_inv_Ok & H).
    apply bind_inv_Ok in H as (list_name & st1 & Hlist & H).
    apply bind_inv_Ok in H as (card_activity & st2 & Hact & H).
    apply bind_inv_Ok in H as (items & st3 & Hitems & H).
    apply bind_inv_Ok in H as ([] & st4 & Hemit & H).
    unfold modify in H. injection H as <-.
    exists card_members, list_name, card_activity, items, st1, st2, st3.
    repeat split; try assumption.
    f_equal. destruct items as [|item items].
    + unfold ret in Hemit. injection Hemit as <-.
      unfold append_tasks. destruct st3; cbn. rewrite app_nil_r. reflexivity.
    + rewrite for_each_append_tasks in Hemit. injection Hemit as <-. reflexivity.
Qed.


Lemma Forall2_concat {A B} (P : A → B → Prop) (ls : list (list A)) (ks : list (list B)) :
  Forall2 (Forall2 P) ls ks → Forall2 P (concat ls) (concat ks).
Proof.
  induction 1 as [|l k ls ks Hlk _ IH]; cbn; [constructor|].
  apply Forall2_app; assumption.
Qed.


(** The loop body returns as soon as its four fetches do. *)
Lemma process_card_returns board_name member_lookup card card_id card_name card_url k
    card_members list_name card_activity checklist_items st st1 st2 st3 :
  getitem card "id" = Ok card_id →
  getitem card "name" = Ok card_name →
  getitem card "shortUrl" = Ok card_url →
  hash card_id = Ok k →
  k ∉ processed_cards st →
  get_card_members card = Ok card_members →
  card_list_name w card st = (Ok list_name, st1) →
  get_card_activity w card_id st1 = (Ok card_activity, st2) →
  get_checklist_items_detailed w card_id member_lookup st2 = (Ok checklist_items, st3) →
  process_card w board_name member_lookup card st
  = (Ok tt,
     add_processed k
       (append_tasks
          (map (task_record board_name card_name list_name card_members card_url
                  card_activity) checklist_items) st3)).
Proof.
  intros Hid Hname Hurl Hk Hnew Hmem Hlist Hact Hitems. unfold process_card.
  rewrite (bind_lift_Ok _ _ _ _ Hid), (bind_lift_Ok _ _ _ _ Hname),
    (bind_lift_Ok _ _ _ _ Hurl), (bind_lift_Ok _ _ _ _ Hk).
  unfold bind at 1, gets. rewrite bool_decide_eq_false_2; [|exact Hnew].
  rewrite (bind_lift_Ok _ _ _ _ Hmem), (bind_Ok _ _ _ _ _ Hlist),
    (bind_Ok _ _ _ _ _ Hact), (bind_Ok _ _ _ _ _ Hitems).
  destruct checklist_items as [|item items].
  - unfold bind, ret, modify. do 2 f_equal.
    unfold append_tasks. destruct st3; cbn. rewrite app_nil_r. reflexivity.
  - rewrite (bind_Ok _ _ _ _ _ (for_each_append_tasks _ _ _)). reflexivity.
Qed.

Lemma skippable_mono (seen seen' : gset key) card :
  seen ⊆ seen' → skippable seen card → skippable seen' card.
Proof.
  intros Hsub (card_id & card_name & card_url & k & Hid & Hname & Hurl & Hk & Hin).
  exists card_id, card_name, card_url, k. repeat split; try assumption.
  apply Hsub, Hin.
Qed.

(** After a loop over cards that got through, every card of the loop is
    one the body would now skip. *)
Lemma for_each_cards_skippable board_name member_lookup cards s s' :
  for_each cards (process_card w board_name member_lookup) s = (Ok tt, s') →
  Forall (skippable (processed_cards s')) cards.
Proof.
  revert s. induction cards as [|card cards IH]; intros s H; [constructor|].
  cbn [for_each] in H. apply bind_inv_Ok in H as ([] & s1 & Hcard & Hrest).
  pose proof (preserves_run _ _ _ _ _
                (preserves_for_each _ _ _ (process_card_frame w board_name member_lookup))
                Hrest) as (Hmono & _).
  constructor; [|exact (IH _ Hrest)].
  apply process_card_inv in Hcard
    as (card_id & card_name & card_url & k & Hid & Hname & Hurl & Hk & Hcases).
  exists card_id, card_name, card_url, k. repeat split; try assumption.
  apply Hmono. destruct Hcases as [[Hin ->] | [_ Hcase]]; [exact Hin|].
  destruct Hcase as (? & ? & ? & ? & ? & ? & ? & _ & _ & _ & _ & ->).
  cbn. set_solver.
Qed.

Lemma for_each_skippable board_name member_lookup cards t :
  Forall (skippable (processed_cards t)) cards →
  for_each cards (process_card w board_name member_lookup) t = (Ok tt, t).
Proof.
  induction 1 as [|card cards Hcard _ IH]; [reflexivity|].
  cbn [for_each]. rewrite (bind_Ok _ _ _ _ _ (process_card_skippable _ _ _ _ Hcard)).
  exact IH.
Qed.

(** A loop that got through ran its body on each element, between two
    states of the loop. *)
Lemma for_each_lookup_inv {A} (l : list A) (body : A → M unit) (i : nat) (x : A)
    (st st' : state) :
  for_each l body st = (Ok tt, st') →
  l !! i = Some x →
  ∃ s s',
    for_each (take i l) body st = (Ok tt, s)
    ∧ body x s = (Ok tt, s')
    ∧ for_each (drop (S i) l) body s' = (Ok tt, st').
Proof.
  revert i st. induction l as [|y l IH]; intros i st Hrun Hi; [discriminate|].
  cbn [for_each] in Hrun. apply bind_inv_Ok in Hrun as ([] & s1 & Hy & Hrest).
  destruct i as [|i]; cbn in Hi.
  - injection Hi as ->. exists st, s1. repeat split; assumption.
  - destruct (IH i s1 Hrest Hi) as (s & s' & Htake & Hx & Hdrop).
    exists s, s'. repeat split; try assumption.
    cbn [take for_each]. rewrite (bind_Ok _ _ _ _ _ Hy). exact Htake.
Qed.


(** A pass over a board that got through ran the loop body on every
    non-archived card of the board, in order; what the body appended to
    [all_tasks] is still there when the board is done. *)
Lemma process_board_runs_body_on_active_cards (board : json) (st st' : state) :
  process_board w board st = (Ok tt, st') →
  ∃ board_name member_lookup all_cards active_cards,
    getitem board "name" = Ok board_name
    ∧ active_cards_of all_cards = Ok active_cards
    ∧ ∀ i card, active_cards !! i = Some card →
        ∃ s s', pass_frame st s
                ∧ process_card w board_name member_lookup card s = (Ok tt, s')
                ∧ pass_frame s' st'.
Proof.
  unfold process_board. intros H.
  apply bind_inv_Ok in H as (board_id & s0 & (Hid & ->)%lift_inv_Ok & H).
  apply bind_inv_Ok in H as (board_name & s0 & (Hname & ->)%lift_inv_Ok & H).
  apply bind_inv_Ok in H as (member_lookup & sa & Hmembers & H).
  apply bind_inv_Ok in H as (all_cards & sb & Hcards & H).
  apply bind_inv_Ok in H as (active_cards & s0 & (Hactive & ->)%lift_inv_Ok & H).
  exists board_name, member_lookup, all_cards, active_cards.
  split; [exact Hname|]. split; [exact Hactive|].
  intros i card Hi.
  destruct (for_each_lookup_inv _ _ i card sb st' H Hi) as (s & s' & Htake & Hcard & Hdrop).
  exists s, s'. split; [|split; [exact Hcard|]].
  - etransitivity; [exact (preserves_run _ _ _ _ _ (get_board_members_pass_frame w _) Hmembers)|].
    etransitivity; [exact (preserves_run _ _ _ _ _ (get_cards_on_board_pass_frame w _) Hcards)|].
    exact (preserves_run _ _ _ _ _
             (preserves_for_each _ _ _ (process_card_frame w board_name member_lookup)) Htake).
  - exact (preserves_run _ _ _ _ _
             (preserves_for_each _ _ _ (process_card_frame w board_name member_lookup)) Hdrop).
Qed.

End Cards.

(** ** One card *)


(** ** Replaying a pass over unchanged upstream data *)

Section Blind.

Lemma state_blind_ret {A} (a : A) : state_blind (ret a).
Proof. intros s t. reflexivity. Qed.

Lemma state_blind_lift {A} (r : result A) : state_blind (lift r).
Proof. intros s t. reflexivity. Qed.

Lemma state_blind_modify (f : state → state) : state_blind (modify f).
Proof. intros s t. reflexivity. Qed.

Lemma state_blind_bind {A B} (m : M A) (k : A → M B) :
  state_blind m → (∀ a, state_blind (k a)) → state_blind (bind m k).
Proof.
  intros Hm Hk s t. unfold bind. specialize (Hm s t).
  destruct (m s) as [[a|e] s1], (m t) as [[a'|e'] t1]; cbn in *;
    try discriminate; try congruence.
  injection Hm as <-. apply Hk.
Qed.

Lemma state_blind_fold_each {A B} (l : list A) (body : B → A → M B) (acc : B) :
  (∀ b x, state_blind (body b x)) → state_blind (fold_each l body acc).
Proof.
  intros Hbody. revert acc. induction l as [|x l IH]; intros acc; cbn [fold_each].
  - apply state_blind_ret.
  - apply state_blind_bind; [apply Hbody | intros b; apply IH].
Qed.

End Blind.

Section Replay.
Variable w : upstream.
Hypothesis w_unchanging : unchanging w.

Lemma same_client_request_for s t endpoint :
  same_client s t → request_for s endpoint = request_for t endpoint.
Proof. intros (H1 & H2 & H3). unfold request_for. rewrite H1, H2, H3. reflexivity. Qed.

Lemma _make_request_replay endpoint s t :
  same_client s t → fst (_make_request w endpoint s) = fst (_make_request w endpoint t).
Proof.
  intros H. rewrite !_make_request_eq. cbn.
  rewrite (same_client_request_for s t _ H), (w_unchanging (clock s) (clock t)).
  reflexivity.
Qed.

Lemma client_frame_same_client s s' : client_frame s s' → same_client s s'.
Proof. intros (_ & _ & H1 & H2 & H3 & _). repeat split; congruence. Qed.

Lemma pass_frame_same_client s s' : pass_frame s s' → same_client s s'.
Proof. intros (_ & _ & H1 & H2 & H3 & _). repeat split; congruence. Qed.

Lemma same_client_sym s t : same_client s t → same_client t s.
Proof. intros (H1 & H2 & H3). repeat split; congruence. Qed.

Lemma same_client_trans s t u : same_client s t → same_client t u → same_client s u.
Proof. intros (H1 & H2 & H3) (G1 & G2 & G3). repeat split; congruence. Qed.

Lemma bind_replay {A B} (m : M A) (k : A → M B) s t :
  fst (m s) = fst (m t) → (∀ a, state_blind (k a)) →
  fst (bind m k s) = fst (bind m k t).
Proof.
  intros Hm Hk. unfold bind.
  destruct (m s) as [[a|e] s1], (m t) as [[a'|e'] t1]; cbn in *;
    try discriminate; try congruence.
  injection Hm as <-. apply Hk.
Qed.

Lemma get_all_boards_replay s t :
  same_client s t → fst (get_all_boards w s) = fst (get_all_boards w t).
Proof.
  intros H. unfold get_all_boards.
  apply bind_replay; [apply _make_request_replay, H|].
  intros r. apply state_blind_ret.
Qed.

Lemma get_cards_on_board_replay board_id s t :
  same_client s t →
  fst (get_cards_on_board w board_id s) = fst (get_cards_on_board w board_id t).
Proof.
  intros H. unfold get_cards_on_board.
  apply bind_replay; [apply _make_request_replay, H|].
  intros r. apply state_blind_ret.
Qed.

Lemma get_board_members_replay board_id s t :
  same_client s t →
  fst (get_board_members w board_id s) = fst (get_board_members w board_id t).
Proof.
  intros H. unfold get_board_members.
  apply bind_replay; [apply _make_request_replay, H|].
  intros r. apply state_blind_bind; [apply state_blind_lift|]. intros members.
  apply state_blind_fold_each. intros lookup member.
  repeat (apply state_blind_bind;
          [first [apply state_blind_lift | apply state_blind_modify]|]; intros ?).
  apply state_blind_ret.
Qed.

Lemma process_board_replay board s s1 t :
  process_board w board s = (Ok tt, s1) →
  same_client s t →
  processed_cards s1 ⊆ processed_cards t →
  ∃ t', process_board w board t = (Ok tt, t') ∧ client_frame t t'.
Proof.
  unfold process_board. intros H Hst Hsub.
  apply bind_inv_Ok in H as (board_id & s0 & (Hid & ->)%lift_inv_Ok & H).
  apply bind_inv_Ok in H as (board_name & s0 & (Hname & ->)%lift_inv_Ok & H).
  apply bind_inv_Ok in H as (member_lookup & sa & Hmembers & H).
  apply bind_inv_Ok in H as (all_cards & sb & Hcards & H).
  apply bind_inv_Ok in H as (active_cards & s0 & (Hactive & ->)%lift_inv_Ok & H).
  rewrite (bind_lift_Ok _ _ _ _ Hid), (bind_lift_Ok _ _ _ _ Hname).
  pose proof (get_board_members_replay board_id s t Hst) as Hm.
  rewrite Hmembers in Hm. cbn in Hm.
  destruct (get_board_members w board_id t) as [rm ta] eqn:Hmt. cbn in Hm. subst rm.
  pose proof (preserves_run _ _ _ _ _ (get_board_members_frame w board_id) Hmembers) as Fsa.
  pose proof (preserves_run _ _ _ _ _ (get_board_members_frame w board_id) Hmt) as Fta.
  assert (Hab : same_client sa ta).
  { eapply same_client_trans; [apply same_client_sym, client_frame_same_client, Fsa|].
    eapply same_client_trans; [exact Hst | apply client_frame_same_client, Fta]. }
  pose proof (get_cards_on_board_replay board_id sa ta Hab) as Hc.
  rewrite Hcards in Hc. cbn in Hc.
  destruct (get_cards_on_board w board_id ta) as [rc tb] eqn:Hct. cbn in Hc. subst rc.
  pose proof (preserves_run _ _ _ _ _ (get_cards_on_board_frame w board_id) Hct) as Ftb.
  rewrite (bind_Ok _ _ _ _ _ Hmt), (bind_Ok _ _ _ _ _ Hct), (bind_lift_Ok _ _ _ _ Hactive).
  assert (Ft : client_frame t tb) by (etransitivity; eassumption).
  exists tb. split; [|exact Ft].
  apply for_each_skippable.
  eapply Forall_impl; [exact (for_each_cards_skippable w _ _ _ _ _ H)|].
  intros card. apply skippable_mono.
  destruct Ft as (-> & _). exact Hsub.
Qed.

Lemma for_each_boards_replay boards s s' t :
  for_each boards (process_board w) s = (Ok tt, s') →
  same_client s t →
  processed_cards s' ⊆ processed_cards t →
  ∃ t', for_each boards (process_board w) t = (Ok tt, t') ∧ client_frame t t'.
Proof.
  revert s t. induction boards as [|board boards IH]; intros s t H Hst Hsub.
  - exists t. split; reflexivity.
  - cbn [for_each] in H |- *.
    apply bind_inv_Ok in H as ([] & s1 & Hboard & Hrest).
    pose proof (preserves_run _ _ _ _ _ (process_board_frame w board) Hboard) as F1.
    pose proof (preserves_run _ _ _ _ _
                  (preserves_for_each _ _ _ (process_board_frame w)) Hrest) as (Hmono & _).
    destruct (process_board_replay board s s1 t Hboard Hst) as (t1 & Ht1 & Ft1);
      [set_solver|].
    rewrite (bind_Ok _ _ _ _ _ Ht1).
    destruct (IH s1 t1 Hrest) as (t' & Ht' & Ft').
    + eapply same_client_trans; [apply same_client_sym, pass_frame_same_client, F1|].
      eapply same_client_trans; [exact Hst | apply client_frame_same_client, Ft1].
    + destruct Ft1 as (-> & _). exact Hsub.
    + exists t'. split; [exact Ht' | etransitivity; eassumption].
Qed.

End Replay.

(** ** The handler *)

Section Handler.
Variable w : upstream.

Lemma sync_trello_guarded environ now p :
  String.eqb (TRELLO_API_KEY environ) "your_api_key_here"
  || String.eqb (TRELLO_TOKEN environ) "your_token_here" = false →
  sync_trello w environ now p
  = (match fst (flatten w now (request_state environ p)) with
     | Ok r => r
     | Raise e => exception_response e
     end,
     process_of (snd (flatten w now (request_state environ p)))).
Proof.
  intros H. unfold sync_trello. rewrite H.
  destruct (flatten w now _) as [[r|e] st]; reflexivity.
Qed.

Lemma flatten_inv_Ok now s r s' :
  flatten w now s = (Ok r, s') →
  ∃ boards sa,
    get_all_boards w s = (Ok boards, sa)
    ∧ ((truthy boards = false ∧ r = error_response "No boards found" 404 ∧ s' = sa)
       ∨ (truthy boards = true
          ∧ ∃ bs, iter boards = Ok bs
                  ∧ for_each bs (process_board w) sa = (Ok tt, s')
                  ∧ r = success_response now (length (all_tasks s')) (all_tasks s'))).
Proof.
  unfold flatten. intros H.
  apply bind_inv_Ok in H as (boards & sa & Hboards & H).
  exists boards, sa. split; [exact Hboards|].
  destruct (truthy boards); cbn [negb] in H.
  - right. split; [reflexivity|].
    apply bind_inv_Ok in H as (bs & s0 & (Hbs & ->)%lift_inv_Ok & H).
    apply bind_inv_Ok in H as ([] & sb & Hloop & H).
    unfold bind, gets, ret in H. injection H as <- <-.
    exists bs. repeat split; assumption.
  - left. unfold ret in H. injection H as <- <-. repeat split.
Qed.

(** No request ever takes an identifier out of [processed_cards]. *)
Lemma sync_trello_seen_mono environ now p :
  seen_cards p ⊆ seen_cards (snd (sync_trello w environ now p)).
Proof.
  unfold sync_trello. destruct (_ || _); [reflexivity|].
  pose proof (flatten_frame w now (request_state environ p)) as (Hmono & _).
  destruct (flatten w now _) as [[r|e] st]; exact Hmono.
Qed.

Lemma later_seen_mono environ p q :
  later w environ p q → seen_cards p ⊆ seen_cards q.
Proof.
  induction 1 as [|p q now _ IH]; [reflexivity|].
  etransitivity; [exact IH | apply sync_trello_seen_mono].
Qed.

End Handler.

(** ** The cards of a pass *)

Section Pass.
Variable w : upstream.




End Pass.

(** ** What a completed pass carries *)


(** ** Deduplication across requests *)

(** C6: with upstream data that does not change, a request that follows a
    request which did not fail with status 500 carries no record and leaves
    [processed_cards] as it is; after a successful request it is the
    success body with no task.  Whatever the outcome of a request, the
    loop body leaves the state untouched, and so emits nothing, for every
    card whose identifier is in the set, in every later request of the
    process. *)
Theorem C6_second_pass_emits_nothing (w : upstream) (environ : gmap string string)
    (now1 now2 : string) (p0 : process) :
  unchanging w →
  let r1 := fst (sync_trello w environ now1 p0) in
  let p1 := snd (sync_trello w environ now1 p0) in
  let r2 := fst (sync_trello w environ now2 p1) in
  let p2 := snd (sync_trello w environ now2 p1) in
  (http_status r1 ≠ 500%Z → records r2 = [] ∧ seen_cards p2 = seen_cards p1)
  ∧ (http_status r1 = 200%Z → r2 = success_response now2 0 [])
  ∧ (∀ q board_name member_lookup card k st,
       later w environ p1 q →
       card_key card = Ok k → k ∈ seen_cards p1 →
       seen_cards q ⊆ processed_cards st →
       snd (process_card w board_name member_lookup card st) = st).
Proof.
  intros Hw r1 p1 r2 p2.
  assert (Hlast : ∀ q board_name member_lookup card k st,
             later w environ p1 q →
             card_key card = Ok k → k ∈ seen_cards p1 →
             seen_cards q ⊆ processed_cards st →
             snd (process_card w board_name member_lookup card st) = st).
  { intros q bn ml card k st Hq Hkey Hin Hsub.
    apply (process_card_seen w bn ml card k st Hkey).
    apply Hsub. apply (later_seen_mono w environ p1 q Hq). exact Hin. }
  destruct (String.eqb (TRELLO_API_KEY environ) "your_api_key_here"
            || String.eqb (TRELLO_TOKEN environ) "your_token_here") eqn:Hguard.
  { (* both requests stop at the credentials check *)
    assert (H1 : sync_trello w environ now1 p0
                 = (error_response "API credentials not set" 400, p0)).
    { unfold sync_trello. rewrite Hguard. reflexivity. }
    subst r1 p1 r2 p2. rewrite H1 in *. cbn [fst snd] in *.
    assert (H2 : sync_trello w environ now2 p0
                 = (error_response "API credentials not set" 400, p0)).
    { unfold sync_trello. rewrite Hguard. reflexivity. }
    rewrite H2. cbn. repeat split; try discriminate; exact Hlast. }
  pose proof (sync_trello_guarded w environ now1 p0 Hguard) as H1.
  destruct (flatten w now1 (request_state environ p0)) as [[r|e] s1] eqn:Hf1;
    cbn [fst snd] in H1.
  2:{ subst r1 p1 r2 p2. rewrite H1 in *. cbn [fst snd http_status] in *.
      repeat split; try (intros; congruence); exact Hlast. }
  assert (Hp1 : p1 = process_of s1) by (subst p1; rewrite H1; reflexivity).
  assert (Hr1 : r1 = r) by (subst r1; rewrite H1; reflexivity).
  clearbody r1 p1. subst r1 p1.
  pose proof (sync_trello_guarded w environ now2 (process_of s1) Hguard) as H2.
  apply flatten_inv_Ok in Hf1 as (boards & sa & Hboards & Hcases).
  set (t0 := request_state environ (process_of s1)) in *.
  assert (Hst : same_client (request_state environ p0) t0) by (repeat split).
  pose proof (get_all_boards_replay w Hw _ t0 Hst) as Hb.
  rewrite Hboards in Hb. cbn in Hb.
  destruct (get_all_boards w t0) as [rb ta] eqn:Hbt. cbn in Hb. subst rb.
  pose proof (preserves_run _ _ _ _ _ (get_all_boards_frame w) Hboards) as Fsa.
  pose proof (preserves_run _ _ _ _ _ (get_all_boards_frame w) Hbt) as Fta.
  destruct Hcases as [(Hfalsy & -> & ->) | (Htruthy & bs & Hbs & Hloop & ->)].
  - (* no boards, twice *)
    assert (Hf2 : flatten w now2 t0 = (Ok (error_response "No boards found" 404), ta)).
    { unfold flatten. rewrite (bind_Ok _ _ _ _ _ Hbt), Hfalsy. reflexivity. }
    rewrite Hf2 in H2. cbn [fst snd] in H2.
    subst r2 p2. rewrite H2. cbn [fst snd records http_status seen_cards process_of].
    destruct Fta as (Hpc & _).
    repeat split; try discriminate; try exact Hlast. exact Hpc.
  - (* every board is replayed and every card skipped *)
    destruct (for_each_boards_replay w Hw bs sa s1 ta Hloop) as (tb & Hloop2 & Ftb).
    + eapply same_client_trans;
        [apply same_client_sym, client_frame_same_client, Fsa|].
      eapply same_client_trans; [exact Hst | apply client_frame_same_client, Fta].
    + destruct Fta as (-> & _). reflexivity.
    + assert (Ft : client_frame t0 tb) by (etransitivity; eassumption).
      destruct Ft as (Hpc & Htasks & _).
      assert (Hf2 : flatten w now2 t0 = (Ok (success_response now2 0 []), tb)).
      { unfold flatten. rewrite (bind_Ok _ _ _ _ _ Hbt), Htruthy. cbn [negb].
        rewrite (bind_lift_Ok _ _ _ _ Hbs), (bind_Ok _ _ _ _ _ Hloop2).
        unfold bind, gets, ret. rewrite Htasks. reflexivity. }
      rewrite Hf2 in H2. cbn [fst snd] in H2.
      subst r2 p2. rewrite H2. cbn [fst snd records http_status seen_cards process_of].
      repeat split; try exact Hlast. exact Hpc.
Qed.

(** A loop over cards that raises at some card leaves in the set every
    card it got through before. *)
Lemma cards_before_a_raise_stay_processed (w : upstream) (board_name : json)
    (member_lookup : gmap key json) (before : list json) (card : json)
    (after : list json) (s s1 s2 : state) (e : exn) :
  for_each before (process_card w board_name member_lookup) s = (Ok tt, s1) →
  process_card w board_name member_lookup card s1 = (Raise e, s2) →
  for_each (before ++ card :: after) (process_card w board_name member_lookup) s
  = (Raise e, s2)
  ∧ Forall (skippable (processed_cards s2)) before.
Proof.
  intros Hbefore Hcard. split.
  - rewrite (for_each_app _ _ _ _ _ Hbefore). cbn [for_each].
    apply bind_Raise. exact Hcard.
  - pose proof (preserves_run _ _ _ _ _
                  (process_card_frame w board_name member_lookup card) Hcard)
      as (Hmono & _).
    eapply Forall_impl; [exact (for_each_cards_skippable w _ _ _ _ _ Hbefore)|].
    intros c. apply skippable_mono, Hmono.
Qed.

(** C9: when a request ends in status 500, the response carries no record
    and the process keeps [processed_cards] as the pass left it at the
    raise, everything it had added included; in every later request of the
    process the loop body leaves the state untouched, and so emits nothing,
    for each card whose identifier is in that set. *)
Theorem C9_failed_pass_keeps_processed_cards (w : upstream)
    (environ : gmap string string) (now : string) (p p' : process) (e : exn) :
  sync_trello w environ now p = (exception_response e, p') →
  http_status (exception_response e) = 500%Z
  ∧ records (exception_response e) = []
  ∧ (∃ st, flatten w now (request_state environ p) = (Raise e, st)
           ∧ seen_cards p' = processed_cards st)
  ∧ seen_cards p ⊆ seen_cards p'
  ∧ (∀ q board_name member_lookup card k st,
       later w environ p' q →
       card_key card = Ok k → k ∈ seen_cards p' →
       seen_cards q ⊆ processed_cards st →
       snd (process_card w board_name member_lookup card st) = st).
Proof.
  intros Hsync. split; [reflexivity|]. split; [reflexivity|].
  split; [|split].
  - unfold sync_trello in Hsync.
    destruct (_ || _); [discriminate|].
    destruct (flatten w now (request_state environ p)) as [[r|e'] st] eqn:Hf.
    + apply flatten_inv_Ok in Hf as (boards & sa & _ & Hcases).
      injection Hsync as -> _.
      destruct Hcases as [(_ & [=] & _) | (_ & bs & _ & _ & [=])].
    + injection Hsync as <- <-. exists st. split; reflexivity.
  - pose proof (sync_trello_seen_mono w environ now p) as H.
    rewrite Hsync in H. exact H.
  - intros q bn ml card k st Hq Hkey Hin Hsub.
    apply (process_card_seen w bn ml card k st Hkey).
    apply Hsub. apply (later_seen_mono w environ p' q Hq). exact Hin.
Qed.

(** ** The caches of the client *)

#[global] Instance cache_kept_preorder : PreOrder cache_kept.
Proof.
  split.
  - intros st. split; auto.
  - intros a b c [H1 H2] [G1 G2]. split; auto.
Qed.

Section Caches.
Variable w : upstream.

Lemma cache_kept_same_client st st' :
  trello_api st' = trello_api st → cache_kept st st'.
Proof. intros H. unfold cache_kept. rewrite H. split; auto. Qed.

Lemma requests_get_cache_kept u k t : preserves cache_kept (requests_get w u k t).
Proof.
  intros st. unfold requests_get.
  destruct (w (clock st) _); apply cache_kept_same_client; reflexivity.
Qed.
Hint Resolve requests_get_cache_kept : frames.

Lemma _make_request_cache_kept endpoint : preserves cache_kept (_make_request w endpoint).
Proof. unfold _make_request. preserve. Qed.
Hint Resolve _make_request_cache_kept : frames.

Lemma _make_request_trello_api endpoint st :
  trello_api (snd (_make_request w endpoint st)) = trello_api st.
Proof. rewrite _make_request_eq. reflexivity. Qed.

Lemma set_member_cache_kept k name : preserves cache_kept (modify (set_member_cache k name)).
Proof.
  apply preserves_modify. intros st. split; cbn; [|auto].
  intros k' H. destruct (decide (k = k')) as [->|Hne].
  - rewrite lookup_insert_eq. eauto.
  - rewrite lookup_insert_ne; assumption.
Qed.
Hint Resolve set_member_cache_kept : frames.

Lemma get_member_name_cache_kept member_id :
  preserves cache_kept (get_member_name w member_id).
Proof. unfold get_member_name. preserve. Qed.

Lemma get_board_members_cache_kept board_id :
  preserves cache_kept (get_board_members w board_id).
Proof. unfold get_board_members. preserve. Qed.

(** A list name is written to the cache only under an identifier that has
    no entry yet. *)
Lemma get_list_name_cache_kept list_id : preserves cache_kept (get_list_name w list_id).
Proof.
  intros st. unfold get_list_name.
  destruct (hash list_id) as [k|e]; [|reflexivity].
  rewrite (bind_lift_Ok _ _ _ _ eq_refl). unfold bind at 1, gets.
  destruct (list_cache (trello_api st) !! k) as [name|] eqn:Hmiss; [reflexivity|].
  unfold bind at 1.
  pose proof (_make_request_cache_kept ("/lists/" ++ str list_id) st) as Hreq.
  pose proof (_make_request_trello_api ("/lists/" ++ str list_id) st) as Hapi.
  destruct (_make_request w _ st) as [[list_data|e] st1]; cbn in Hreq, Hapi |- *;
    [|exact Hreq].
  destruct (truthy list_data); [|exact Hreq].
  unfold bind, lift.
  destruct (get_default list_data "name" (JStr "Unknown List")) as [name|e];
    [|exact Hreq].
  cbn. etransitivity; [exact Hreq|].
  split; cbn; [auto|].
  intros k' name' H. destruct (decide (k = k')) as [->|Hne].
  - rewrite Hapi, Hmiss in H. discriminate.
  - rewrite lookup_insert_ne; assumption.
Qed.
Hint Resolve get_list_name_cache_kept get_board_members_cache_kept : frames.

Lemma process_card_cache_kept board_name member_lookup card :
  preserves cache_kept (process_card w board_name member_lookup card).
Proof.
  unfold process_card, card_list_name, get_card_activity, get_checklist_items_detailed.
  preserve; apply preserves_modify; intros st; apply cache_kept_same_client; reflexivity.
Qed.
Hint Resolve process_card_cache_kept : frames.

Lemma process_board_cache_kept board : preserves cache_kept (process_board w board).
Proof. unfold process_board, get_cards_on_board. preserve. Qed.
Hint Resolve process_board_cache_kept : frames.

Lemma flatten_cache_kept now : preserves cache_kept (flatten w now).
Proof. unfold flatten, get_all_boards. preserve. Qed.

(** A cached name is returned without any request. *)
Lemma get_member_name_cached member_id k name st :
  hash member_id = Ok k → member_cache (trello_api st) !! k = Some name →
  get_member_name w member_id st = (Ok name, st).
Proof.
  intros Hk Hhit. unfold get_member_name. rewrite (bind_lift_Ok _ _ _ _ Hk).
  unfold bind, gets. rewrite Hhit. reflexivity.
Qed.

Lemma get_list_name_cached list_id k name st :
  hash list_id = Ok k → list_cache (trello_api st) !! k = Some name →
  get_list_name w list_id st = (Ok name, st).
Proof.
  intros Hk Hhit. unfold get_list_name. rewrite (bind_lift_Ok _ _ _ _ Hk).
  unfold bind, gets. rewrite Hhit. reflexivity.
Qed.

End Caches.

(** C3, as the code has it: a cached member or list name is returned
    without any request, and the pass keeps it for as long as the client
    object lives; but every request builds a new client, so at the start of
    each request both caches are empty. *)
Theorem C3_caches_live_for_one_request (w : upstream) (environ : gmap string string)
    (now : string) (p : process) (id : json) (k : key) (cached : json) (st : state) :
  hash id = Ok k →
  (member_cache (trello_api st) !! k = Some cached →
   get_member_name w id st = (Ok cached, st))
  ∧ (list_cache (trello_api st) !! k = Some cached →
     get_list_name w id st = (Ok cached, st))
  ∧ (∀ board_name member_lookup card,
       preserves cache_kept (process_card w board_name member_lookup card))
  ∧ (∀ board, preserves cache_kept (process_board w board))
  ∧ preserves cache_kept (flatten w now)
  ∧ member_cache (trello_api (request_state environ p)) = ∅
  ∧ list_cache (trello_api (request_state environ p)) = ∅.
Proof.
  intros Hk.
  refine (conj _ (conj _ (conj _ (conj _ (conj _ (conj _ _)))))).
  - apply get_member_name_cached, Hk.
  - apply get_list_name_cached, Hk.
  - intros. apply process_card_cache_kept.
  - apply process_board_cache_kept.
  - apply flatten_cache_kept.
  - reflexivity.
  - reflexivity.
Qed.

(** ** Failed upstream calls *)

Section ClientFailures.
Variable w : upstream.

Lemma reply_value_non_success r : non_success r → reply_value r = Ok JNull.
Proof.
  intros (code & body & -> & Hcode). cbn.
  destruct (Z.eqb_spec code 200); [contradiction | reflexivity].
Qed.




End ClientFailures.


(** C10: credentials that are set but rejected upstream (every request
    under them is answered with a status other than 200) make
    [get_all_boards] return the empty sequence and the handler answer 404
    with ["No boards found"], exactly what it answers to an account whose
    board list is empty. *)
Theorem C10_rejected_credentials_look_like_no_boards (w : upstream)
    (environ : gmap string string) (now : string) (p : process) :
  TRELLO_API_KEY environ ≠ "your_api_key_here" →
  TRELLO_TOKEN environ ≠ "your_token_here" →
  (∀ n r, params_key r = TRELLO_API_KEY environ →
          params_token r = TRELLO_TOKEN environ → non_success (w n r)) →
  fst (get_all_boards w (request_state environ p)) = Ok (JArr [])
  ∧ sync_trello w environ now p
    = (error_response "No boards found" 404,
       {| requests_made := S (requests_made p); seen_cards := seen_cards p |})
  ∧ http_status (fst (sync_trello w environ now p)) = 404%Z
  ∧ (∀ w' : upstream,
       w' (requests_made p) (request_for (request_state environ p) "/members/me/boards")
       = Response 200 (Some (JArr [])) →
       fst (sync_trello w' environ now p) = fst (sync_trello w environ now p)).
Proof.
  intros Hkey Htoken Hrejected.
  assert (Hguard : String.eqb (TRELLO_API_KEY environ) "your_api_key_here"
                   || String.eqb (TRELLO_TOKEN environ) "your_token_here" = false).
  { apply orb_false_iff. split; apply String.eqb_neq; assumption. }
  set (st := request_state environ p).
  assert (Hboards : get_all_boards w st = (Ok (JArr []), tick st)).
  { unfold get_all_boards, bind. rewrite _make_request_eq.
    rewrite reply_value_non_success; [reflexivity|].
    apply Hrejected; reflexivity. }
  assert (Hsync : sync_trello w environ now p
                  = (error_response "No boards found" 404,
                     {| requests_made := S (requests_made p); seen_cards := seen_cards p |})).
  { rewrite (sync_trello_guarded w environ now p Hguard). fold st.
    unfold flatten. rewrite (bind_Ok _ _ _ _ _ Hboards). reflexivity. }
  split; [rewrite Hboards; reflexivity|].
  split; [exact Hsync|].
  split; [rewrite Hsync; reflexivity|].
  intros w' Hempty. rewrite Hsync. subst st.
  rewrite (sync_trello_guarded w' environ now p Hguard).
  unfold flatten, get_all_boards. unfold bind at 1 2. rewrite _make_request_eq.
  change (clock (request_state environ p)) with (requests_made p).
  rewrite Hempty. reflexivity.
Qed.

(** ** Credentials *)

(** C7: with the key or the token unset, or equal to its placeholder, the
    handler answers 400 with ["API credentials not set"] and the process is
    as before: in particular no request was made. *)
Theorem C7_missing_credentials_400 (w : upstream) (environ : gmap string string)
    (now : string) (p : process) :
  environ !! "TRELLO_API_KEY" = None
  ∨ environ !! "TRELLO_API_KEY" = Some "your_api_key_here"
  ∨ environ !! "TRELLO_TOKEN" = None
  ∨ environ !! "TRELLO_TOKEN" = Some "your_token_here" →
  sync_trello w environ now p = (error_response "API credentials not set" 400, p)
  ∧ http_status (fst (sync_trello w environ now p)) = 400%Z
  ∧ requests_made (snd (sync_trello w environ now p)) = requests_made p.
Proof.
  intros H.
  assert (Hguard : String.eqb (TRELLO_API_KEY environ) "your_api_key_here"
                   || String.eqb (TRELLO_TOKEN environ) "your_token_here" = true).
  { unfold TRELLO_API_KEY, TRELLO_TOKEN, getenv.
    destruct H as [-> | [-> | [-> | ->]]]; cbn;
      rewrite ?orb_true_r; reflexivity. }
  unfold sync_trello. rewrite Hguard. auto.
Qed.

Lemma C7_missing_credentials_400_witness :
  sync_trello upstream_down ∅ "2024-07-04T18:00:00" process_start
  = (error_response "API credentials not set" 400, process_start)
  ∧ http_status (fst (sync_trello upstream_down ∅ "2024-07-04T18:00:00" process_start)) = 400%Z
  ∧ requests_made (snd (sync_trello upstream_down ∅ "2024-07-04T18:00:00" process_start))
    = requests_made process_start.
Proof.
  apply (C7_missing_credentials_400 upstream_down ∅ "2024-07-04T18:00:00" process_start).
  left. reflexivity.
Defined.

(** ** The properties at concrete inputs *)


Lemma upstream_one_card_unchanging : unchanging upstream_one_card.
Proof. intros n m r. reflexivity. Qed.



(** C3, as stated, fails: the first request caches the name of list [L1];
    the second request of the same process starts with an empty list cache,
    asks upstream again for the list of card [c3] and, the list being gone,
    reports the sentinel name instead of the cached one. *)
Lemma C3_later_request_starts_with_empty_caches :
  let first := flatten upstream_list_gone "2024-07-04T18:00:00" (state_start environ_set) in
  let p1 := snd (sync_trello upstream_list_gone environ_set "2024-07-04T18:00:00"
                   process_start) in
  let second := sync_trello upstream_list_gone environ_set "2024-07-04T19:00:00" p1 in
  list_cache (trello_api (snd first)) !! KStr "L1" = Some (JStr "Todo")
  ∧ p1 = process_of (snd first)
  ∧ list_cache (trello_api (request_state environ_set p1)) !! KStr "L1" = None
  ∧ getitem card_c3 "idList" = Ok (JStr "L1")
  ∧ map Project_Name (records (fst second)) = [JStr "Invoice"]
  ∧ map Status (records (fst second)) = [JStr "Unknown List"].
Proof. cbv zeta. repeat split; vm_compute; reflexivity. Qed.

Lemma C3_caches_live_for_one_request_witness :
  let st := snd (flatten upstream_one_card "2024-07-04T18:00:00" (state_start environ_set)) in
  hash (JStr "L1") = Ok (KStr "L1")
  ∧ list_cache (trello_api st) !! KStr "L1" = Some (JStr "Todo")
  ∧ get_list_name upstream_down (JStr "L1") st = (Ok (JStr "Todo"), st)
  ∧ list_cache (trello_api (request_state environ_set (process_of st))) = ∅.
Proof.
  cbv zeta.
  set (st := snd (flatten upstream_one_card "2024-07-04T18:00:00" (state_start environ_set))).
  assert (Hhit : list_cache (trello_api st) !! KStr "L1" = Some (JStr "Todo"))
    by (vm_compute; reflexivity).
  pose proof (C3_caches_live_for_one_request upstream_down environ_set
                "2024-07-04T18:00:00" (process_of st) (JStr "L1") (KStr "L1")
                (JStr "Todo") st eq_refl) as (_ & Hlist & _ & _ & _ & _ & Hempty).
  split; [reflexivity|]. split; [exact Hhit|]. split; [exact (Hlist Hhit)|].
  exact Hempty.
Defined.


Lemma C6_second_pass_emits_nothing_witness :
  let first := sync_trello upstream_one_card environ_set "2024-07-04T18:00:00" process_start in
  let second := sync_trello upstream_one_card environ_set "2024-07-04T19:00:00" (snd first) in
  unchanging upstream_one_card
  ∧ http_status (fst first) = 200%Z
  ∧ length (records (fst first)) = 2%nat
  ∧ fst second = success_response "2024-07-04T19:00:00" 0 []
  ∧ seen_cards (snd second) = seen_cards (snd first).
Proof.
  cbv zeta.
  pose proof (C6_second_pass_emits_nothing upstream_one_card environ_set
                "2024-07-04T18:00:00" "2024-07-04T19:00:00" process_start
                upstream_one_card_unchanging) as (Hrecords & Hsuccess & _).
  assert (H200 : http_status (fst (sync_trello upstream_one_card environ_set
                                     "2024-07-04T18:00:00" process_start)) = 200%Z)
    by (vm_compute; reflexivity).
  split; [exact upstream_one_card_unchanging|].
  split; [exact H200|].
  split; [vm_compute; reflexivity|].
  split; [exact (Hsuccess H200)|].
  refine (proj2 (Hrecords _)). rewrite H200. discriminate.
Defined.

Lemma C9_failed_pass_keeps_processed_cards_witness :
  let first := sync_trello upstream_nameless_then_fixed environ_set "2024-07-04T18:00:00"
                 process_start in
  let second := sync_trello upstream_nameless_then_fixed environ_set "2024-07-04T19:00:00"
                  (snd first) in
  first = (exception_response (KeyError "name"), snd first)
  ∧ KStr "c1" ∈ seen_cards (snd first)
  ∧ card_key card_c1 = Ok (KStr "c1")
  ∧ map Project_Name (records (fst second)) = [JStr "Launch"]
  ∧ (∃ st, flatten upstream_nameless_then_fixed "2024-07-04T18:00:00"
             (request_state environ_set process_start) = (Raise (KeyError "name"), st)
           ∧ seen_cards (snd first) = processed_cards st)
  ∧ (∀ q board_name member_lookup card k st,
       later upstream_nameless_then_fixed environ_set (snd first) q →
       card_key card = Ok k → k ∈ seen_cards (snd first) →
       seen_cards q ⊆ processed_cards st →
       snd (process_card upstream_nameless_then_fixed board_name member_lookup card st) = st).
Proof.
  cbv zeta.
  assert (Hfirst : sync_trello upstream_nameless_then_fixed environ_set
                     "2024-07-04T18:00:00" process_start
                   = (exception_response (KeyError "name"),
                      snd (sync_trello upstream_nameless_then_fixed environ_set
                             "2024-07-04T18:00:00" process_start))).
  { vm_compute. reflexivity. }
  pose proof (C9_failed_pass_keeps_processed_cards upstream_nameless_then_fixed
                environ_set "2024-07-04T18:00:00" process_start _ _ Hfirst)
    as (_ & _ & Hkept & _ & Hlater).
  split; [exact Hfirst|].
  split; [vm_compute; reflexivity|].
  split; [reflexivity|].
  split; [vm_compute; reflexivity|].
  split; [exact Hkept | exact Hlater].
Defined.

Lemma C10_rejected_credentials_look_like_no_boards_witness :
  TRELLO_API_KEY environ_set ≠ "your_api_key_here"
  ∧ TRELLO_TOKEN environ_set ≠ "your_token_here"
  ∧ fst (get_all_boards upstream_unauthorized (request_state environ_set process_start))
    = Ok (JArr [])
  ∧ sync_trello upstream_unauthorized environ_set "2024-07-04T18:00:00" process_start
    = (error_response "No boards found" 404, {| requests_made := 1; seen_cards := ∅ |})
  ∧ fst (sync_trello (upstream_of [("https://api.trello.com/1/members/me/boards",
                                    ok (JArr []))])
           environ_set "2024-07-04T18:00:00" process_start)
    = fst (sync_trello upstream_unauthorized environ_set "2024-07-04T18:00:00" process_start).
Proof.
  assert (Hkey : TRELLO_API_KEY environ_set ≠ "your_api_key_here") by discriminate.
  assert (Htoken : TRELLO_TOKEN environ_set ≠ "your_token_here") by discriminate.
  pose proof (C10_rejected_credentials_look_like_no_boards upstream_unauthorized
                environ_set "2024-07-04T18:00:00" process_start Hkey Htoken)
    as (Hboards & Hsync & _ & Hsame).
  { intros n r _ _. exists 401%Z, None. split; [reflexivity | discriminate]. }
  split; [exact Hkey|]. split; [exact Htoken|].
  split; [exact Hboards|]. split; [exact Hsync|].
  apply Hsame. reflexivity.
Defined.




(** * Further properties of the code *)

(** ** The timestamp localizer, beyond the claims *)

Section LocalizerMore.
Local Open Scope Z_scope.

Lemma substring_short (n : nat) (s : string) :
  (String.length s ≤ n)%nat → substring 0 n s = s.
Proof.
  revert n. induction s as [|c s IH]; intros n H; destruct n as [|n]; cbn in *;
    try reflexivity; try lia.
  f_equal. apply IH. lia.
Qed.

(** The handler's value for a string is its first 16 characters. *)
Lemma fallback_of_text (s : string) :
  (let? n := len (JStr s) in
   if (16 <=? n)%nat then slice_to 16 (JStr s) else Ok (JStr s))
  = Ok (JStr (substring 0 16 s)).
Proof.
  unfold len, slice_to. cbn [result_bind].
  destruct (Nat.leb_spec 16 (String.length s)); [reflexivity|].
  rewrite substring_short; [reflexivity | lia].
Qed.

Lemma localize_text_is_text (s : string) (v : json) :
  localize (JStr s) = Ok v → ∃ out, v = JStr out.
Proof.
  unfold localize.
  destruct (fromisoformat (replace_Z s)) as [t|]; cbn [result_bind]; [|discriminate].
  destruct (offset_and_label t) as [ol|]; cbn [result_bind]; [|discriminate].
  destruct (add t ol.1) as [c|]; cbn [result_bind]; [|discriminate].
  set (out := (_ ++ _)%string). clearbody out.
  intros H. exists out. congruence.
Qed.

(** X1: on a string the localizer never raises and always returns a
    string; when the text is not an ISO timestamp, or the shifted time
    leaves the years 1..9999, it returns the first 16 characters of the
    text (all of it when shorter). *)
Theorem convert_of_text_never_raises (s : string) :
  (∃ out, convert_to_canada_central_time (JStr s) = Ok (JStr out))
  ∧ (∀ e, fromisoformat (replace_Z s) = Raise e →
          convert_to_canada_central_time (JStr s) = Ok (JStr (substring 0 16 s)))
  ∧ (∀ e, localize (JStr s) = Raise e →
          convert_to_canada_central_time (JStr s) = Ok (JStr (substring 0 16 s)))
  ∧ ((String.length s ≤ 16)%nat → ∀ e, localize (JStr s) = Raise e →
          convert_to_canada_central_time (JStr s) = Ok (JStr s)).
Proof.
  assert (Hraise : ∀ e, localize (JStr s) = Raise e →
            convert_to_canada_central_time (JStr s) = Ok (JStr (substring 0 16 s))).
  { intros e He. unfold convert_to_canada_central_time. rewrite He.
    apply fallback_of_text. }
  split; [|split; [|split]].
  - destruct (localize (JStr s)) as [v|e] eqn:Hl.
    + destruct (localize_text_is_text s v Hl) as (out & ->).
      exists out. unfold convert_to_canada_central_time. rewrite Hl. reflexivity.
    + exists (substring 0 16 s). exact (Hraise e eq_refl).
  - intros e He. apply (Hraise e). unfold localize. rewrite He. reflexivity.
  - exact Hraise.
  - intros Hlen e He. rewrite (Hraise e He), substring_short; [reflexivity | exact Hlen].
Qed.

Lemma convert_of_text_never_raises_witness :
  fromisoformat (replace_Z "not-a-date") = Raise ValueError
  ∧ convert_to_canada_central_time (JStr "not-a-date") = Ok (JStr "not-a-date")
  ∧ localize (JStr "0001-01-01T00:00:00Z") = Raise OverflowError
  ∧ convert_to_canada_central_time (JStr "0001-01-01T00:00:00Z")
    = Ok (JStr "0001-01-01T00:00").
Proof.
  assert (H1 : fromisoformat (replace_Z "not-a-date") = Raise ValueError)
    by (vm_compute; reflexivity).
  assert (H2 : localize (JStr "0001-01-01T00:00:00Z") = Raise OverflowError)
    by (vm_compute; reflexivity).
  split; [exact H1|]. split.
  { exact (proj1 (proj2 (convert_of_text_never_raises "not-a-date")) _ H1). }
  split; [exact H2|].
  exact (proj1 (proj2 (proj2 (convert_of_text_never_raises "0001-01-01T00:00:00Z"))) _ H2).
Defined.

(** Adding a duration reads the civil fields only and keeps [tzinfo]. *)
Lemma add_ignores_tzinfo (t : datetime) (tz : option Z) (delta : timedelta) :
  add (mk_datetime (year t) (month t) (day t) (hour t) (minute t) (second t)
         (microsecond t) tz) delta
  = match add t delta with
    | Ok c => Ok (mk_datetime (year c) (month c) (day c) (hour c) (minute c) (second c)
                    (microsecond c) tz)
    | Raise e => Raise e
    end.
Proof.
  unfold add, toordinal. cbn [year month day hour minute second microsecond tzinfo].
  destruct (_ && _); [|reflexivity].
  destruct (ord2ymd _) as [[y m] d].
  cbn [year month day hour minute second microsecond tzinfo]. reflexivity.
Qed.

Lemma offset_and_label_ignores_tzinfo (t : datetime) (tz : option Z) :
  offset_and_label (mk_datetime (year t) (month t) (day t) (hour t) (minute t)
                      (second t) (microsecond t) tz)
  = offset_and_label t.
Proof. reflexivity. Qed.

Lemma localize_of_parsed (s : string) (t : datetime) :
  fromisoformat (replace_Z s) = Ok t →
  localize (JStr s)
  = (let? ol := offset_and_label (replace_tzinfo_None t) in
     let? central_time := add (replace_tzinfo_None t) (fst ol) in
     Ok (JStr (strftime_Ymd central_time ++ " " ++ lstrip_0 (strftime_IMp central_time)
               ++ " " ++ snd ol)%string)).
Proof.
  intros Hp. unfold localize. rewrite Hp. cbn [result_bind].
  unfold replace_tzinfo_None. rewrite offset_and_label_ignores_tzinfo.
  destruct (offset_and_label t) as [ol|]; cbn [result_bind]; [|reflexivity].
  rewrite add_ignores_tzinfo.
  destruct (add t ol.1) as [c|]; reflexivity.
Qed.

(** X2: the UTC offset written in the input plays no part: two texts that
    parse to the same civil date and time are localized alike, whatever
    offsets they carry. *)
Theorem localizer_ignores_utc_offset (s1 s2 : string) (t1 t2 : datetime) :
  fromisoformat (replace_Z s1) = Ok t1 →
  fromisoformat (replace_Z s2) = Ok t2 →
  replace_tzinfo_None t1 = replace_tzinfo_None t2 →
  localize (JStr s1) = localize (JStr s2)
  ∧ (∀ v, localize (JStr s1) = Ok v →
          convert_to_canada_central_time (JStr s1) = Ok v
          ∧ convert_to_canada_central_time (JStr s2) = Ok v).
Proof.
  intros H1 H2 Hnaive.
  assert (Heq : localize (JStr s1) = localize (JStr s2)).
  { rewrite (localize_of_parsed s1 t1 H1), (localize_of_parsed s2 t2 H2), Hnaive.
    reflexivity. }
  split; [exact Heq|].
  intros v Hv. unfold convert_to_canada_central_time.
  rewrite <- Heq, Hv. split; reflexivity.
Qed.

Lemma localizer_ignores_utc_offset_witness :
  fromisoformat (replace_Z "2024-07-04T18:00:00Z")
  = Ok (mk_datetime 2024 7 4 18 0 0 0 (Some 0))
  ∧ fromisoformat (replace_Z "2024-07-04T18:00:00+05:30")
    = Ok (mk_datetime 2024 7 4 18 0 0 0 (Some 19800000000))
  ∧ convert_to_canada_central_time (JStr "2024-07-04T18:00:00Z")
    = Ok (JStr "2024-07-04 1:00 PM CDT")
  ∧ convert_to_canada_central_time (JStr "2024-07-04T18:00:00+05:30")
    = Ok (JStr "2024-07-04 1:00 PM CDT").
Proof.
  assert (H1 : fromisoformat (replace_Z "2024-07-04T18:00:00Z")
               = Ok (mk_datetime 2024 7 4 18 0 0 0 (Some 0))) by (vm_compute; reflexivity).
  assert (H2 : fromisoformat (replace_Z "2024-07-04T18:00:00+05:30")
               = Ok (mk_datetime 2024 7 4 18 0 0 0 (Some 19800000000)))
    by (vm_compute; reflexivity).
  split; [exact H1|]. split; [exact H2|].
  apply (proj2 (localizer_ignores_utc_offset _ _ _ _ H1 H2 eq_refl)).
  vm_compute. reflexivity.
Defined.







(** X4: in every supported year the window closes at midnight of the first
    Sunday of November, a day from the 1st to the 7th. *)
Theorem dst_end_is_first_sunday_of_november (year : Z) :
  MINYEAR ≤ year ≤ MAXYEAR →
  ∃ d, dst_end year = Ok (midnight year 11 d)
       ∧ 1 ≤ d ≤ 7
       ∧ weekday (midnight year 11 d) = 6
       ∧ d = nth_sunday year 11 1.
Proof.
  intros Hy. destruct (dst_window_every_year year Hy) as (_ & He & _ & Hd & _ & Hw).
  exists (nth_sunday year 11 1). repeat split; try assumption; lia.
Qed.

Lemma dst_end_is_first_sunday_of_november_witness :
  MINYEAR ≤ 2024 ≤ MAXYEAR
  ∧ dst_end 2024 = Ok (midnight 2024 11 3)
  ∧ ∃ d, dst_end 2024 = Ok (midnight 2024 11 d)
         ∧ 1 ≤ d ≤ 7
         ∧ weekday (midnight 2024 11 d) = 6
         ∧ d = nth_sunday 2024 11 1.
Proof.
  assert (Hy : MINYEAR ≤ 2024 ≤ MAXYEAR) by (unfold MINYEAR, MAXYEAR; lia).
  split; [exact Hy|]. split; [vm_compute; reflexivity|].
  exact (dst_end_is_first_sunday_of_november 2024 Hy).
Defined.

(** X5: a value that is not a string makes the [try] block raise, and the
    handler then measures the value itself: a number, a boolean or [None]
    raises [TypeError] out of the function, a list comes back cut to its
    first 16 elements, and a dict comes back as it is when it has fewer
    than 16 keys and raises otherwise. *)
Theorem convert_of_non_text :
  (∀ n, convert_to_canada_central_time (JNum n) = Raise TypeError)
  ∧ (∀ b, convert_to_canada_central_time (JBool b) = Raise TypeError)
  ∧ convert_to_canada_central_time JNull = Raise TypeError
  ∧ (∀ l, convert_to_canada_central_time (JArr l) = Ok (JArr (take 16 l)))
  ∧ (∀ d, convert_to_canada_central_time (JObj d)
          = if (16 <=? length d)%nat then Raise TypeError else Ok (JObj d)).
Proof.
  unfold convert_to_canada_central_time, localize, len, slice_to.
  repeat split; intros; cbn [result_bind]; try reflexivity.
  destruct (Nat.leb_spec 16 (length l)); [reflexivity|].
  rewrite take_ge; [reflexivity | lia].
Qed.

End LocalizerMore.
